(** * IoTPy: the [iot] / [iot_merge] agent disciplines and the NTP drift helpers

    Shallow embedding of
      - [IoTPy/agent_types/iot.py]  ([iot], [iot_merge], [sliding_window_test]
        and the three tests of that module), and
      - [examples/timing/timing.py] (the [clock_drift_from_*] functions).

    Python integers are [Z].  A Python list is a [list]; slicing follows
    Python's clamping rules ([py_slice]).  A user callback that appends to
    streams it captured is a state-passing function over the store that
    holds those streams.  A raised exception is the [Raise] branch of
    [result]. *)

From Stdlib Require Import ZArith QArith List Bool Lia Sorted Permutation.
Import ListNotations.
Local Open Scope Z_scope.

(** ** Python values and exceptions *)

(** The exceptions the modelled code can raise. *)
Inductive exn : Type :=
| AssertionError
| IndexError
| ValueError
| ZeroDivisionError
| OtherError.

Inductive result (A : Type) : Type :=
| Ok (a : A)
| Raise (e : exn).
Arguments Ok {A} a.
Arguments Raise {A} e.

Set Warnings "-register-all".

(** What a user callback may hand back to the transition: the
    transitions test the value with [isinstance(_, int)] and
    [isinstance(_, list)], so the model keeps apart integers, lists and
    everything else. *)
Inductive pyval : Type :=
| PyInt (z : Z)
| PyNone
| PyList (l : list pyval)
| PyOther.

Definition len {A : Type} (l : list A) : Z := Z.of_nat (length l).

(** [l[a:b]] with Python's rules: a negative index counts from the end, and
    both ends are clamped to [0 .. len l]. *)
Definition py_index (n i : Z) : Z :=
  if i <? 0 then Z.max 0 (n + i) else Z.min i n.

Definition py_slice {A : Type} (l : list A) (a b : Z) : list A :=
  let a' := py_index (len l) a in
  let b' := py_index (len l) b in
  firstn (Z.to_nat (b' - a')) (skipn (Z.to_nat a') l).

(** [l[a:]] *)
Definition py_slice_from {A : Type} (l : list A) (a : Z) : list A :=
  py_slice l a (len l).

(** [l[:b]] *)
Definition py_slice_to {A : Type} (l : list A) (b : Z) : list A :=
  py_slice l 0 b.

(** ** The [InList] triple handed to a transition

    [iot.py] reads three attributes of each element of [in_lists]:
    [.list], [.start] and [.stop]. *)
Record InList (Elt : Type) : Type := mkInList {
  il_list : list Elt;
  il_start : Z;
  il_stop : Z
}.
Arguments mkInList {Elt} il_list il_start il_stop.
Arguments il_list {Elt} i.
Arguments il_start {Elt} i.
Arguments il_stop {Elt} i.

(** [in_list.list[in_list.start : in_list.stop]] *)
Definition in_list_slice {Elt : Type} (il : InList Elt) : list Elt :=
  py_slice (il_list il) (il_start il) (il_stop il).

(** ** The two transitions *)

Section Transitions.
(** [Elt]: elements of the streams; [State]: the agent state; [Store]: the
    objects the callback mutates (the streams bound into it through
    [*args], [**kwargs] or [self]). *)
Context {Elt State Store : Type}.

(** The triple a transition returns:
    (list of output lists, next state, new pointers). *)
Definition transition_result : Type :=
  (list (list Elt) * State * list Z)%type.

(** *** [iot]: the nested function [transition] (iot.py, lines 44-65) *)
Definition iot_transition
    (func : list Elt -> Store -> Store * result pyval)
    (in_lists : list (InList Elt)) (state : State) (store : Store)
  : Store * result transition_result :=
  match in_lists with
  | [] => (store, Raise IndexError)          (* in_lists[0] *)
  | il0 :: _ =>
      let A := in_list_slice il0 in
      match func A store with
      | (store', Raise e) => (store', Raise e)
      | (store', Ok (PyInt new_start)) =>
          if new_start >=? 0
          then (store', Ok ([], state, [new_start + il_start il0]))
          else (store', Raise AssertionError)   (* assert new_start >= 0 *)
      | (store', Ok _) =>
          (store', Raise AssertionError)        (* assert isinstance(_, int) *)
      end
  end.

(** *** [iot_merge]: the nested function [transition] (lines 109-141) *)

(** The loop [for new_start in new_starts: assert isinstance(new_start,
    int) and (new_start >= 0)]; it yields the integers when every
    assertion passes. *)
Fixpoint check_new_starts (new_starts : list pyval) : option (list Z) :=
  match new_starts with
  | [] => Some []
  | PyInt d :: rest =>
      if d >=? 0
      then match check_new_starts rest with
           | Some ds => Some (d :: ds)
           | None => None
           end
      else None
  | _ :: _ => None
  end.

(** The loop [for i in range(len(new_starts)):
    new_starts[i] += in_lists[i].start].  It runs after
    [len(new_starts) == len(A_list)] was asserted, so [in_lists[i]]
    exists for every [i]; the model stops at the shorter list.  The loop
    updates in place the list object the callback returned; the callbacks
    of the module return a fresh list on every call, and so does the model:
    the update shows in the pointers handed back and nowhere else. *)
Fixpoint add_starts (ds : list Z) (in_lists : list (InList Elt)) : list Z :=
  match ds, in_lists with
  | d :: ds', il :: ils' => (d + il_start il) :: add_starts ds' ils'
  | _, _ => []
  end.

Definition iot_merge_transition
    (func : list (list Elt) -> Store -> Store * result pyval)
    (in_lists : list (InList Elt)) (state : State) (store : Store)
  : Store * result transition_result :=
  let A_list := map in_list_slice in_lists in
  match func A_list store with
  | (store', Raise e) => (store', Raise e)
  | (store', Ok (PyList new_starts)) =>
      if len new_starts =? len A_list
      then match check_new_starts new_starts with
           | Some ds => (store', Ok ([], state, add_starts ds in_lists))
           | None => (store', Raise AssertionError)
           end
      else (store', Raise AssertionError)
  | (store', Ok _) =>
      (store', Raise AssertionError)        (* assert isinstance(_, list) *)
  end.

End Transitions.

(** ** [sliding_window_test] (iot.py, lines 208-226) *)

(** [range(n)] *)
Definition py_range (n : Z) : list Z := map Z.of_nat (seq 0 (Z.to_nat n)).

Section SlidingWindow.
Context {Elt Out : Type}.

(** The attributes of a [sliding_window_test] object.  [out_stream] holds
    the contents of the stream object the attribute refers to; [output] is
    the attribute the method [extend] assigns ([[]] before the first
    assignment).  The attribute [in_stream] is only read by [__init__], to
    register the agent; the stream itself is held by the system below. *)
Record sliding_window_test : Type := mk_sliding_window_test {
  sw_func : list Elt -> Out;
  out_stream : list Out;
  window_size : Z;
  step_size : Z;
  output : list Out
}.

(** The window [A[i*step_size : i*step_size + window_size]]. *)
Definition window (self : sliding_window_test) (A : list Elt) (i : Z)
  : list Elt :=
  py_slice A (i * step_size self) (i * step_size self + window_size self).

(** The method [extend].  [//] raises on a zero divisor, and [np.zeros]
    raises on a negative size. *)
Definition extend (A : list Elt) (self : sliding_window_test)
  : sliding_window_test * result pyval :=
  if len A <? window_size self then (self, Ok (PyInt 0))
  else if step_size self =? 0 then (self, Raise ZeroDivisionError)
  else
    let num_steps := 1 + (len A - window_size self) / step_size self in
    if num_steps <? 0 then (self, Raise ValueError)
    else
      let output' := map (fun i => sw_func self (window self A i))
                         (py_range num_steps) in
      ({| sw_func := sw_func self;
          out_stream := out_stream self ++ output';
          window_size := window_size self;
          step_size := step_size self;
          output := output' |},
       Ok (PyInt (num_steps * step_size self))).

End SlidingWindow.
Arguments sliding_window_test : clear implicits.

(** ** The runtime around a transition

    Modelled from the spec: the classes [Agent] and [Stream] and the
    function [run] are imported by [iot.py] from modules that are not part
    of the sources at hand.  The model follows section 4.2 of the
    specification and the docstrings of [iot] and [iot_merge]:
      - the slice offered for input [i] is [[pointer_i, stream_i.length)] at
        invocation time, handed over as [InList(list, start, stop)]
        ("func operates on ... a slice of the input stream from the point
        previously specified by func to the most recent value");
      - the pointers the transition returns are where the next slices begin
        ("the next time that func is called, it will be passed a slice into
        its input stream starting from this pointer"; the agent "will no
        longer read elements of in_stream before index
        in_lists[0].start + new_start");
      - extending an input stream makes the agent ready, and [run] invokes a
        ready agent ("iot is called whenever in_stream is extended");
      - an invocation that raises is fatal to the agent: it is not invoked
        again.
    Section 4.2 also asks that a returned pointer lie between the starting
    pointer and the stream length.  Which part of that the transitions of
    [iot.py] enforce is what the statements below establish, so the runtime
    takes the returned pointers as they come and adds no check of its
    own. *)

Section Runtime.
Context {Elt State Store : Type}.

Definition transition_t : Type :=
  list (InList Elt) -> State -> Store ->
  Store * result (@transition_result Elt State).

(** One invocation, as recorded in the history of a system: the slices
    offered, and what the transition returned. *)
Record Invocation : Type := mkInvocation {
  inv_in_lists : list (InList Elt);
  inv_result : result (@transition_result Elt State)
}.

(** One agent, the streams it reads and the store its callback writes. *)
Record System : Type := mkSystem {
  sys_streams : list (list Elt);
  sys_store : Store;
  sys_pointers : list Z;
  sys_state : State;
  sys_failed : option exn;
  sys_ready : bool;
  sys_history : list Invocation
}.

(** [Agent(in_streams, [], transition)] on fresh streams. *)
Definition new_system (n_in_streams : nat) (state : State) (store : Store)
  : System :=
  {| sys_streams := repeat [] n_in_streams;
     sys_store := store;
     sys_pointers := repeat 0 n_in_streams;
     sys_state := state;
     sys_failed := None;
     sys_ready := false;
     sys_history := [] |}.

Fixpoint in_lists_of (streams : list (list Elt)) (pointers : list Z)
  : list (InList Elt) :=
  match streams, pointers with
  | s :: streams', p :: pointers' =>
      mkInList s p (len s) :: in_lists_of streams' pointers'
  | _, _ => []
  end.

Fixpoint extend_nth (i : nat) (values : list Elt)
    (streams : list (list Elt)) : list (list Elt) :=
  match streams, i with
  | [], _ => []
  | s :: streams', O => (s ++ values) :: streams'
  | s :: streams', S i' => s :: extend_nth i' values streams'
  end.

(** [in_streams[i].extend(values)] *)
Definition stream_extend (i : nat) (values : list Elt) (sys : System)
  : System :=
  {| sys_streams := extend_nth i values (sys_streams sys);
     sys_store := sys_store sys;
     sys_pointers := sys_pointers sys;
     sys_state := sys_state sys;
     sys_failed := sys_failed sys;
     sys_ready := true;
     sys_history := sys_history sys |}.

(** One invocation of the agent. *)
Definition invoke (transition : transition_t) (sys : System) : System :=
  let in_lists := in_lists_of (sys_streams sys) (sys_pointers sys) in
  let '(store', r) := transition in_lists (sys_state sys) (sys_store sys) in
  let history' := sys_history sys ++ [mkInvocation in_lists r] in
  match r with
  | Ok (_, state', pointers') =>
      {| sys_streams := sys_streams sys;
         sys_store := store';
         sys_pointers := pointers';
         sys_state := state';
         sys_failed := None;
         sys_ready := false;
         sys_history := history' |}
  | Raise e =>
      {| sys_streams := sys_streams sys;
         sys_store := store';
         sys_pointers := sys_pointers sys;
         sys_state := sys_state sys;
         sys_failed := Some e;
         sys_ready := false;
         sys_history := history' |}
  end.

(** [run()] *)
Definition run (transition : transition_t) (sys : System) : System :=
  match sys_failed sys with
  | Some _ => sys
  | None => if sys_ready sys then invoke transition sys else sys
  end.

Inductive event : Type :=
| Extend (i : nat) (values : list Elt)
| Run.

Definition step (transition : transition_t) (sys : System) (e : event)
  : System :=
  match e with
  | Extend i values => stream_extend i values sys
  | Run => run transition sys
  end.

Definition exec (transition : transition_t) (sys : System)
    (events : list event) : System :=
  fold_left (step transition) events sys.

(** The pointer the [k]-th invocation returned for input [i], and the
    slice it was offered. *)
Definition returned_pointers (inv : Invocation) : option (list Z) :=
  match inv_result inv with
  | Ok (_, _, pointers) => Some pointers
  | Raise _ => None
  end.

(** The part of input [0] an invocation consumed: from its starting
    pointer to the pointer it returned, read off the stream as it was at
    invocation time. *)
Definition consumed_slice (inv : Invocation) : list Elt :=
  match inv_in_lists inv, returned_pointers inv with
  | il :: _, Some (p :: _) => py_slice (il_list il) (il_start il) p
  | _, _ => []
  end.

End Runtime.
Arguments System : clear implicits.
Arguments Invocation : clear implicits.
Arguments event : clear implicits.

(** ** The tests of [iot.py] *)

(** [np.arange(a, b)] *)
Definition arange (a b : Z) : list Z := map (fun i => a + i) (py_range (b - a)).

(** [test_iot_class] (lines 227-239).  The stream [x] holds integers; the
    stream [y] holds the floats [np.sum] produces, all of them integral, so
    both are lists of [Z] here. *)
Module TestIotClass.

Definition np_sum (A : list Z) : Z := fold_left Z.add A 0.

(** [sliding_window_test(func=np.sum, in_stream=x, out_stream=y,
    window_size=5, step_size=2)], with [y] empty. *)
Definition sw : sliding_window_test Z Z :=
  {| sw_func := np_sum; out_stream := []; window_size := 5; step_size := 2;
     output := [] |}.

(** [iot(func=self.extend, in_stream=self.in_stream)] *)
Definition transition : @transition_t Z unit (sliding_window_test Z Z) :=
  iot_transition extend.

Definition sys0 : System Z unit (sliding_window_test Z Z) :=
  new_system 1 tt sw.

(** [x.extend(np.arange(10)); run()] *)
Definition sys1 := exec transition sys0 [Extend 0 (arange 0 10); Run].

(** [x.extend(np.arange(10, 20)); run()] *)
Definition sys2 := exec transition sys1 [Extend 0 (arange 10 20); Run].

(** [recent_values(y)] *)
Definition y (sys : System Z unit (sliding_window_test Z Z)) : list Z :=
  out_stream (sys_store sys).

End TestIotClass.

(** [min(l)] *)
Definition py_min (l : list Z) : result Z :=
  match l with
  | [] => Raise ValueError
  | a :: l' => Ok (fold_left Z.min l' a)
  end.

(** [test_iot_merge] (lines 186-205).  The streams [x] and [y] hold floats
    that are all integral; a row of the two-dimensional stream [z] is a list
    of two of them. *)
Module TestIotMerge.

(** [np.column_stack((a, b))] on two one-dimensional arrays of one length *)
Definition column_stack (a b : list Z) : list (list Z) :=
  map (fun ab => [fst ab; snd ab]) (combine a b).

(** The callback [f(A_list, z)]; the store is the stream [z]. *)
Definition f (A_list : list (list Z)) (z : list (list Z))
  : list (list Z) * result pyval :=
  match py_min (map len A_list) with
  | Raise e => (z, Raise e)
  | Ok n_rows =>
      match A_list with
      | A0 :: A1 :: _ =>
          let out := column_stack (py_slice_to A0 n_rows)
                                  (py_slice_to A1 n_rows) in
          (z ++ out, Ok (PyList (map (fun _ => PyInt n_rows) A_list)))
      | _ => (z, Raise IndexError)                       (* A_list[1] *)
      end
  end.

(** [iot_merge(f, [x, y], z=z)] *)
Definition transition : @transition_t Z unit (list (list Z)) :=
  iot_merge_transition f.

Definition sys0 : System Z unit (list (list Z)) := new_system 2 tt [].

(** [x.extend(np.arange(5)); run()] *)
Definition sys1 := exec transition sys0 [Extend 0%nat (arange 0 5); Run].

(** [y.extend(np.arange(100, 109)); run()] *)
Definition sys2 := exec transition sys1 [Extend 1%nat (arange 100 109); Run].

(** One more round, beyond the test: [x.extend(np.arange(5, 7)); run()] *)
Definition sys3 := exec transition sys2 [Extend 0%nat (arange 5 7); Run].

(** [recent_values(z)] *)
Definition z (sys : System Z unit (list (list Z))) : list (list Z) :=
  sys_store sys.

End TestIotMerge.

(** ** [examples/timing/timing.py]: clock drift from NTP servers

    The module is Python 2 ([print] statements), so [/] on two integers is
    floor division.

    Floating-point numbers are kept abstract: the functions only test a
    drift for truth, add, divide and compare drifts, and convert an integer
    to a float, and the statements below hold for every interpretation of
    these operations.  The NTP client is a state-passing oracle over the
    outside world, which either yields the offset of the response or
    raises. *)

Module Timing.

(** Computations that act on a world [W] and may raise. *)
Definition M (W A : Type) : Type := W -> W * result A.

Definition ret {W A : Type} (a : A) : M W A := fun w => (w, Ok a).

Definition bind {W A B : Type} (m : M W A) (k : A -> M W B) : M W B :=
  fun w =>
    match m w with
    | (w', Ok a) => k a w'
    | (w', Raise e) => (w', Raise e)
    end.

Notation "x <- m ;; k" := (bind m (fun x => k))
  (at level 61, m at next level, right associativity).

(** [[f(x) for x in l]] *)
Fixpoint for_each {W A B : Type} (f : A -> M W B) (l : list A)
  : M W (list B) :=
  match l with
  | [] => ret []
  | a :: l' => b <- f a ;; bs <- for_each f l' ;; ret (b :: bs)
  end.

(** [l[i]] *)
Definition py_getitem {W A : Type} (l : list A) (i : Z) : M W A :=
  fun w =>
    let j := if i <? 0 then i + len l else i in
    if (0 <=? j) && (j <? len l)
    then match nth_error l (Z.to_nat j) with
         | Some a => (w, Ok a)
         | None => (w, Raise IndexError)
         end
    else (w, Raise IndexError).

(** [[v for v in l if v is not None]] *)
Fixpoint not_None {A : Type} (l : list (option A)) : list A :=
  match l with
  | [] => []
  | Some v :: l' => v :: not_None l'
  | None :: l' => not_None l'
  end.

Section Drift.
Context {server float World : Type}.

(** The float operations the module uses. *)
Variable fzero : float.                       (* the literal [0.0] *)
Variable ftwo : float.                        (* the literal [2.0] *)
Variable is_true : float -> bool.             (* [bool(x)] *)
Variable fadd : float -> float -> float.      (* [x + y] *)
Variable fdiv : float -> float -> float.      (* [x / y] *)
Variable of_int : Z -> float.                 (* [float(n)] *)
Variable flt : float -> float -> bool.        (* [x < y] *)

(** [ntp_client.request(ntp_server, version=3).offset] *)
Variable request : server -> M World float.

(** [logging.warning('No response from NTP server: %s', ntp_server)] *)
Variable log_warning : server -> World -> World.

(** [clock_drift_from_ntp_server] (lines 59-85): the bare [except]
    catches whatever the request raises. *)
Definition clock_drift_from_ntp_server (ntp_server : server)
  : M World (option float) :=
  fun w =>
    match request ntp_server w with
    | (w', Ok offset) => (w', Ok (Some offset))
    | (w', Raise _) => (log_warning ntp_server w', Ok None)
    end.

(** [if drift:] on a value that is [None] or a float *)
Definition truthy (drift : option float) : bool :=
  match drift with
  | None => false
  | Some d => is_true d
  end.

(** [clock_drift_from_first_ntp_server] (lines 88-113) *)
Fixpoint clock_drift_from_first_ntp_server (list_of_ntp_servers : list server)
  : M World float :=
  match list_of_ntp_servers with
  | [] => ret fzero
  | ntp_server :: rest =>
      drift <- clock_drift_from_ntp_server ntp_server ;;
      match drift with
      | Some d => if is_true d then ret d
                  else clock_drift_from_first_ntp_server rest
      | None => clock_drift_from_first_ntp_server rest
      end
  end.

(** [sum(l)]: the accumulator starts as the integer [0], which the first
    addition converts to a float. *)
Definition py_sum (l : list float) : float := fold_left fadd l (of_int 0).

(** [clock_drift_from_average_of_ntp_servers] (lines 115-140); the
    function falls off its end, returning [None], when no drift is left. *)
Definition clock_drift_from_average_of_ntp_servers
    (list_of_ntp_servers : list server) : M World (option float) :=
  list_of_drifts_including_None <-
    for_each clock_drift_from_ntp_server list_of_ntp_servers ;;
  let list_of_drifts := not_None list_of_drifts_including_None in
  match list_of_drifts with
  | [] => ret None
  | _ :: _ =>
      ret (Some (fdiv (py_sum list_of_drifts) (of_int (len list_of_drifts))))
  end.

(** [sorted(l)]: a stable sort by [<]. *)
Fixpoint insert_sorted (x : float) (l : list float) : list float :=
  match l with
  | [] => [x]
  | y :: l' => if flt x y then x :: y :: l' else y :: insert_sorted x l'
  end.

Definition sorted (l : list float) : list float :=
  fold_left (fun acc x => insert_sorted x acc) l [].

(** [clock_drift_from_median_of_ntp_servers] (lines 143-181) *)
Definition clock_drift_from_median_of_ntp_servers
    (list_of_ntp_servers : list server) : M World (option float) :=
  list_of_drifts_including_None <-
    for_each clock_drift_from_ntp_server list_of_ntp_servers ;;
  let list_of_drifts := not_None list_of_drifts_including_None in
  match list_of_drifts with
  | [] => ret None
  | _ :: _ =>
      let list_of_drifts := sorted list_of_drifts in
      let midpoint := len list_of_drifts / 2 in
      if len list_of_drifts =? 0 then ret (Some fzero)
      else if len list_of_drifts =? 1 then
        d <- py_getitem list_of_drifts 0 ;; ret (Some d)
      else if negb (len list_of_drifts mod 2 =? 0) then
        d <- py_getitem list_of_drifts midpoint ;; ret (Some d)
      else
        a <- py_getitem list_of_drifts (midpoint - 1) ;;
        b <- py_getitem list_of_drifts midpoint ;;
        ret (Some (fdiv (fadd a b) ftwo))
  end.

End Drift.

(** *** A concrete interpretation, used to run the functions

    Servers are numbered and drifts are rationals; server [n] answers with
    the drift [answers n] or fails; the world records which servers were
    asked and which failures were logged. *)

Inductive entry : Type :=
| Asked (ntp_server : nat)
| Warned (ntp_server : nat).

Definition answers (ntp_server : nat) : result Q :=
  match ntp_server with
  | 0%nat => Raise OtherError
  | 1%nat => Ok (0 # 1)%Q
  | 2%nat => Raise OtherError
  | S (S (S n)) => Ok (Z.of_nat n - 2 # 4)%Q
  end.

Definition scripted_request (ntp_server : nat) : M (list entry) Q :=
  fun w => (w ++ [Asked ntp_server], answers ntp_server).

Definition scripted_warning (ntp_server : nat) (w : list entry) : list entry :=
  w ++ [Warned ntp_server].

Definition q_is_true (x : Q) : bool := negb (Qeq_bool x (0 # 1)).
Definition q_lt (x y : Q) : bool := negb (Qle_bool y x).
Definition q_div (x y : Q) : Q := Qred (x / y).
Definition q_add (x y : Q) : Q := Qred (x + y).

Definition q_first :=
  clock_drift_from_first_ntp_server (0 # 1)%Q q_is_true
    scripted_request scripted_warning.
Definition q_average :=
  clock_drift_from_average_of_ntp_servers q_add q_div inject_Z
    scripted_request scripted_warning.
Definition q_median :=
  clock_drift_from_median_of_ntp_servers (0 # 1)%Q (2 # 1)%Q q_add q_div q_lt
    scripted_request scripted_warning.

End Timing.

(** ** Vocabulary of the statements *)

(** A value the assertions of [iot]'s transition accept. *)
Definition nonneg_int (v : pyval) : Prop := exists d, v = PyInt d /\ 0 <= d.

(** A value the assertions of [iot_merge]'s transition accept, for [n]
    input streams. *)
Definition well_shaped (n : nat) (v : pyval) : Prop :=
  exists vs, v = PyList vs /\ length vs = n /\ Forall nonneg_int vs.

(** A callback of [iot] that never reports more elements than its slice
    holds. *)
Definition within_slice {Elt Store : Type}
    (func : list Elt -> Store -> Store * result pyval) : Prop :=
  forall A store store' d,
    func A store = (store', Ok (PyInt d)) -> d <= len A.

(** The same for a callback of [iot_merge], input by input. *)
Definition within_slices {Elt Store : Type}
    (func : list (list Elt) -> Store -> Store * result pyval) : Prop :=
  forall A_list store store' vs,
    func A_list store = (store', Ok (PyList vs)) ->
    Forall2 (fun A v => forall d, v = PyInt d -> d <= len A) A_list vs.

(** Callbacks used to run the transitions on concrete inputs. *)

(** Reports one element more than the slice holds. *)
Definition overshoot (A : list Z) (store : unit) : unit * result pyval :=
  (store, Ok (PyInt (len A + 1))).

(** A window of one element that advances by two. *)
Definition hopping : sliding_window_test Z Z :=
  {| sw_func := TestIotClass.np_sum; out_stream := []; window_size := 1;
     step_size := 2; output := [] |}.

(** Reports the whole slice, as the callbacks of [test_iot] do. *)
Definition take_all (A : list Z) (store : unit) : unit * result pyval :=
  (store, Ok (PyInt (len A))).

(** Reports the whole of every slice. *)
Definition take_all_merge (A_list : list (list Z)) (store : unit)
  : unit * result pyval :=
  (store, Ok (PyList (map (fun A => PyInt (len A)) A_list))).

(** The input stream of a single-input system. *)
Definition in_stream {Elt State Store : Type} (sys : System Elt State Store)
  : list Elt :=
  nth 0 (sys_streams sys) [].

(** ** Histories of invocations *)

Section History.
Context {Elt State : Type}.

(** The pointers an invocation started from. *)
Definition starts (inv : Invocation Elt State) : list Z :=
  map il_start (inv_in_lists inv).

(** [trace p h q failed]: the invocations [h], in order, lead from the
    pointers [p] to the pointers [q]; each one starts at the pointers the
    one before returned, and only the last one may have raised. *)
Inductive trace : list Z -> list (Invocation Elt State) -> list Z -> bool
                  -> Prop :=
| trace_nil (p : list Z) : trace p [] p false
| trace_ok (p : list Z) (inv : Invocation Elt State)
    (h : list (Invocation Elt State)) (q ps : list Z) (failed : bool) :
    starts inv = p -> returned_pointers inv = Some ps ->
    trace ps h q failed -> trace p (inv :: h) q failed
| trace_raise (p : list Z) (inv : Invocation Elt State) :
    starts inv = p -> returned_pointers inv = None ->
    trace p [inv] p true.

(** Every returned pointer is the starting pointer plus a nonnegative
    displacement. *)
Definition advancing (h : list (Invocation Elt State)) : Prop :=
  forall inv ps, In inv h -> returned_pointers inv = Some ps ->
    Forall2 (fun il p => il_start il <= p) (inv_in_lists inv) ps.

(** Each invocation starts at the pointers the previous one returned. *)
Definition chained (h : list (Invocation Elt State)) : Prop :=
  forall k inv1 inv2,
    nth_error h k = Some inv1 -> nth_error h (S k) = Some inv2 ->
    returned_pointers inv1 = Some (starts inv2).

(** The pointers returned by successive invocations do not decrease. *)
Definition non_decreasing (h : list (Invocation Elt State)) : Prop :=
  forall k inv1 inv2 ps1 ps2,
    nth_error h k = Some inv1 -> nth_error h (S k) = Some inv2 ->
    returned_pointers inv1 = Some ps1 -> returned_pointers inv2 = Some ps2 ->
    Forall2 Z.le ps1 ps2.

(** No returned pointer exceeds the length its stream had when the
    invocation took place. *)
Definition within_streams (h : list (Invocation Elt State)) : Prop :=
  forall inv ps, In inv h -> returned_pointers inv = Some ps ->
    Forall2 (fun il p => p <= len (il_list il)) (inv_in_lists inv) ps.

(** Every slice offered ends at the length of its stream. *)
Definition offered_to_the_end (h : list (Invocation Elt State)) : Prop :=
  forall inv, In inv h ->
    Forall (fun il => il_stop il = len (il_list il)) (inv_in_lists inv).

End History.

(** What the runtime needs of a transition over [n] input streams. *)
Definition advances {Elt State Store : Type} (n : nat)
    (T : @transition_t Elt State Store) : Prop :=
  forall in_lists state store store' outs state' ps,
    length in_lists = n ->
    T in_lists state store = (store', Ok (outs, state', ps)) ->
    Forall2 (fun il p => il_start il <= p) in_lists ps.

Definition stays_within {Elt State Store : Type} (n : nat)
    (T : @transition_t Elt State Store) : Prop :=
  forall in_lists state store store' outs state' ps,
    length in_lists = n ->
    Forall (fun il => 0 <= il_start il <= il_stop il
                      /\ il_stop il = len (il_list il)) in_lists ->
    T in_lists state store = (store', Ok (outs, state', ps)) ->
    Forall2 (fun il p => p <= il_stop il) in_lists ps.

Definition has_failed {Elt State Store : Type} (sys : System Elt State Store)
  : bool :=
  match sys_failed sys with Some _ => true | None => false end.

(** The invariant of a run that began with [n] fresh streams. *)
Definition run_invariant {Elt State Store : Type} (n : nat)
    (sys : System Elt State Store) : Prop :=
  length (sys_streams sys) = n
  /\ length (sys_pointers sys) = n
  /\ trace (repeat 0 n) (sys_history sys) (sys_pointers sys) (has_failed sys)
  /\ advancing (sys_history sys)
  /\ offered_to_the_end (sys_history sys).

(** The invariant of a run whose transition stays within the streams. *)
Definition bounded_invariant {Elt State Store : Type}
    (sys : System Elt State Store) : Prop :=
  Forall2 (fun s p => 0 <= p <= len s) (sys_streams sys) (sys_pointers sys)
  /\ within_streams (sys_history sys).

(** The invariant of a single-input run whose callback stays within its
    slices: the slices consumed so far make up the stream up to the
    pointer. *)
Definition cover_invariant {Elt State Store : Type}
    (sys : System Elt State Store) : Prop :=
  exists s p,
    sys_streams sys = [s] /\ sys_pointers sys = [p] /\ 0 <= p <= len s
    /\ concat (map consumed_slice (sys_history sys)) = py_slice_to s p.

(** ** More of the two modules *)

(** Arithmetic on a numpy array of [dtype=int] is 64-bit and wraps. *)
Definition wrap64 (z : Z) : Z := (z + 2 ^ 63) mod 2 ^ 64 - 2 ^ 63.

(** [test_iot] (iot.py, lines 154-184): two agents read the stream [x];
    the callback [f] writes [2*A] to [y] and [3*A] to [z], the callback [g]
    writes [A+A] to [u] and [A**2] to [v]; both report the whole slice.  The
    store of a callback is the pair of its two output streams. *)
Module TestIot.

Definition f (A : list Z) (yz : list Z * list Z)
  : (list Z * list Z) * result pyval :=
  ((fst yz ++ map (fun a => wrap64 (2 * a)) A,
    snd yz ++ map (fun a => wrap64 (3 * a)) A),
   Ok (PyInt (len A))).

Definition g (A : list Z) (uv : list Z * list Z)
  : (list Z * list Z) * result pyval :=
  ((fst uv ++ map (fun a => wrap64 (a + a)) A,
    snd uv ++ map (fun a => wrap64 (a ^ 2)) A),
   Ok (PyInt (len A))).

(** [iot(f, x, y, z)] and [iot(g, x, u, v)], all streams empty. *)
Definition agent_f : System Z unit (list Z * list Z) :=
  new_system 1 tt ([], []).
Definition agent_g : System Z unit (list Z * list Z) :=
  new_system 1 tt ([], []).

Definition y (sys : System Z unit (list Z * list Z)) := fst (sys_store sys).
Definition z (sys : System Z unit (list Z * list Z)) := snd (sys_store sys).
Definition u (sys : System Z unit (list Z * list Z)) := fst (sys_store sys).
Definition v (sys : System Z unit (list Z * list Z)) := snd (sys_store sys).

End TestIot.

(** [offset_estimation_test] (IoTPy/tests/multicore_test.py, lines
    151-208): the reducer [average_of_list] it hands to [map_window].  The
    test of the list for truth comes before the [None] elements are
    removed, and the division by [float(0)] raises. *)
Module MulticoreTest.

Section AverageOfList.
Context {float : Type}.
Variable fzero : float.                       (* the literal [0.0] *)
Variable fadd : float -> float -> float.      (* [x + y] *)
Variable fdiv : float -> float -> float.      (* [x / y], [y] not zero *)
Variable of_int : Z -> float.                 (* [float(n)] *)

Definition average_of_list (a_list : list (option float)) : result float :=
  match a_list with
  | [] => Ok fzero
  | _ :: _ =>
      let a_list := Timing.not_None a_list in
      if len a_list =? 0 then Raise ZeroDivisionError
      else Ok (fdiv (Timing.py_sum fadd of_int a_list) (of_int (len a_list)))
  end.

End AverageOfList.

End MulticoreTest.

(** *** What the incremental operators are compared with *)

(** The number of full windows of size [w], [s] apart, in [n] elements. *)
Definition full_windows (w s n : Z) : Z :=
  if n <? w then 0 else (n - w) / s + 1.

(** The reducer on every full window of a whole stream, in order. *)
Definition batch_windows {Elt Out : Type} (func : list Elt -> Out)
    (w s : Z) (x : list Elt) : list Out :=
  map (fun i => func (py_slice x (i * s) (i * s + w)))
      (py_range (full_windows w s (len x))).

(** A fresh sliding window over a fresh stream. *)
Definition new_window {Elt Out : Type} (func : list Elt -> Out) (w s : Z)
  : System Elt unit (sliding_window_test Elt Out) :=
  new_system 1 tt
    {| sw_func := func; out_stream := []; window_size := w; step_size := s;
       output := [] |}.

(** Two drifts are told apart by [<] unless they are the same. *)
Definition total_on {float : Type} (flt : float -> float -> bool)
    (l : list float) : Prop :=
  (forall a b, In a l -> In b l -> flt a b = true -> flt b a = false)
  /\ (forall a b, In a l -> In b l ->
       flt a b = false -> flt b a = false -> a = b)
  /\ (forall a b c, In a l -> In b l -> In c l ->
       flt b a = false -> flt c b = false -> flt c a = false).

(** The invariant of a sliding window whose step is not positive: the
    pointer never leaves the start of the stream. *)
Definition stuck_invariant {Elt Out : Type} (s : Z)
    (sys : System Elt unit (sliding_window_test Elt Out)) : Prop :=
  exists x,
    sys_streams sys = [x] /\ sys_pointers sys = [0]
    /\ step_size (sys_store sys) = s
    /\ (s = 0 -> out_stream (sys_store sys) = [])
    /\ (forall e, sys_failed sys = Some e ->
        e = ZeroDivisionError \/ e = ValueError \/ e = AssertionError).

(** The two agents of [test_iot], driven by the same events: they stand at
    the same pointer, and their outputs are the images of the stream up to
    that pointer. *)
Definition test_iot_invariant
    (sf sg : System Z unit (list Z * list Z)) : Prop :=
  exists x p,
    sys_streams sf = [x] /\ sys_streams sg = [x]
    /\ sys_pointers sf = [p] /\ sys_pointers sg = [p]
    /\ 0 <= p <= len x
    /\ sys_failed sf = None /\ sys_failed sg = None
    /\ sys_ready sf = sys_ready sg
    /\ (sys_ready sf = true \/ p = len x)
    /\ sys_store sf = (map (fun a => wrap64 (2 * a)) (py_slice_to x p),
                       map (fun a => wrap64 (3 * a)) (py_slice_to x p))
    /\ sys_store sg = (map (fun a => wrap64 (a + a)) (py_slice_to x p),
                       map (fun a => wrap64 (a ^ 2)) (py_slice_to x p)).

(** The invariant of a sliding window over a stream: [k] windows were
    reduced, the pointer stands [k] steps into the stream, and the output
    holds the reducer on the first [k] full windows of the stream. *)
Definition window_invariant {Elt Out : Type} (func : list Elt -> Out)
    (w s : Z) (sys : System Elt unit (sliding_window_test Elt Out)) : Prop :=
  exists x k,
    sys_streams sys = [x] /\ sys_pointers sys = [k * s]
    /\ 0 <= k <= full_windows w s (len x)
    /\ sys_failed sys = None
    /\ sw_func (sys_store sys) = func
    /\ window_size (sys_store sys) = w
    /\ step_size (sys_store sys) = s
    /\ out_stream (sys_store sys)
       = map (fun i => func (py_slice x (i * s) (i * s + w))) (py_range k)
    /\ (sys_ready sys = true \/ k = full_windows w s (len x)).

(** The invariant of the merge agent of [test_iot_merge]: both pointers
    stand at the same place, and [z] holds the rows of the two streams up to
    there. *)
Definition zip_invariant (sys : System Z unit (list (list Z))) : Prop :=
  exists x y p,
    sys_streams sys = [x; y] /\ sys_pointers sys = [p; p]
    /\ 0 <= p /\ p <= len x /\ p <= len y
    /\ sys_failed sys = None
    /\ sys_store sys
       = TestIotMerge.column_stack (py_slice_to x p) (py_slice_to y p)
    /\ (sys_ready sys = true \/ p = Z.min (len x) (len y)).

(** *** What a merge agent consumes, input by input *)

Section ConsumedPerInput.
Context {Elt State : Type}.

(** The part of each input an invocation consumed: from its starting
    pointer to the pointer it returned, read off the stream as it was at
    invocation time; nothing when it raised. *)
Definition consumed_slices (inv : Invocation Elt State) : list (list Elt) :=
  match returned_pointers inv with
  | Some ps =>
      map (fun ilp => py_slice (il_list (fst ilp)) (il_start (fst ilp))
                               (snd ilp))
          (combine (inv_in_lists inv) ps)
  | None => map (fun _ => []) (inv_in_lists inv)
  end.

Definition append_each (a b : list (list Elt)) : list (list Elt) :=
  map (fun ab => fst ab ++ snd ab) (combine a b).

(** The slices consumed over a history, concatenated input by input. *)
Definition consumed_per_input (n : nat) (h : list (Invocation Elt State))
  : list (list Elt) :=
  fold_left append_each (map consumed_slices h) (repeat [] n).

(** Each stream up to its pointer, and from its pointer on. *)
Definition read_parts (streams : list (list Elt)) (pointers : list Z)
  : list (list Elt) :=
  map (fun sp => py_slice_to (fst sp) (snd sp)) (combine streams pointers).

Definition unread_parts (streams : list (list Elt)) (pointers : list Z)
  : list (list Elt) :=
  map (fun sp => py_slice_from (fst sp) (snd sp)) (combine streams pointers).

End ConsumedPerInput.

(** The invariant of a run whose transition stays within the streams: the
    slices consumed make up each stream up to its pointer. *)
Definition cover_each_invariant {Elt State Store : Type} (n : nat)
    (sys : System Elt State Store) : Prop :=
  length (sys_streams sys) = n
  /\ Forall2 (fun s p => 0 <= p <= len s) (sys_streams sys) (sys_pointers sys)
  /\ consumed_per_input n (sys_history sys)
     = read_parts (sys_streams sys) (sys_pointers sys).

(** * Properties *)

(** ** Python slices *)

Lemma len_nonneg {A : Type} (l : list A) : 0 <= len l.
Proof. unfold len; lia. Qed.

Lemma len_app {A : Type} (l1 l2 : list A) : len (l1 ++ l2) = len l1 + len l2.
Proof. unfold len; rewrite length_app; lia. Qed.

Lemma py_index_in_range (n i : Z) : 0 <= i <= n -> py_index n i = i.
Proof.
  intros H; unfold py_index.
  destruct (Z.ltb_spec i 0); lia.
Qed.

Lemma py_index_beyond (n i : Z) : 0 <= n <= i -> py_index n i = n.
Proof.
  intros H; unfold py_index.
  destruct (Z.ltb_spec i 0); lia.
Qed.

Lemma py_slice_in_range {A : Type} (l : list A) (a b : Z) :
  0 <= a <= len l -> 0 <= b <= len l ->
  py_slice l a b = firstn (Z.to_nat (b - a)) (skipn (Z.to_nat a) l).
Proof.
  intros Ha Hb; unfold py_slice.
  now rewrite !py_index_in_range.
Qed.

Lemma py_slice_from_in_range {A : Type} (l : list A) (a : Z) :
  0 <= a <= len l -> py_slice_from l a = skipn (Z.to_nat a) l.
Proof.
  intros Ha; unfold py_slice_from.
  rewrite py_slice_in_range by (pose proof (len_nonneg l); lia).
  apply firstn_all2.
  rewrite length_skipn; unfold len in *; lia.
Qed.

Lemma py_slice_from_beyond {A : Type} (l : list A) (a : Z) :
  len l <= a -> py_slice_from l a = [].
Proof.
  intros Ha; unfold py_slice_from, py_slice.
  pose proof (len_nonneg l).
  rewrite (py_index_beyond (len l) a) by lia.
  rewrite (py_index_in_range (len l) (len l)) by lia.
  now rewrite Z.sub_diag.
Qed.

Lemma len_py_slice {A : Type} (l : list A) (a b : Z) :
  0 <= a <= b -> b <= len l -> len (py_slice l a b) = b - a.
Proof.
  intros Ha Hb.
  rewrite py_slice_in_range by lia.
  unfold len in *; rewrite length_firstn, length_skipn; lia.
Qed.

Lemma len_py_slice_from {A : Type} (l : list A) (a : Z) :
  0 <= a <= len l -> len (py_slice_from l a) = len l - a.
Proof. intros Ha; unfold py_slice_from; apply len_py_slice; lia. Qed.

(** Slicing a tail slice is slicing the list further along. *)
Lemma py_slice_of_tail {A : Type} (l : list A) (p a b : Z) :
  0 <= p -> 0 <= a <= b -> p + b <= len l ->
  py_slice (py_slice_from l p) a b = py_slice l (p + a) (p + b).
Proof.
  intros Hp Ha Hb.
  rewrite (py_slice_in_range (py_slice_from l p))
    by (rewrite len_py_slice_from; lia).
  rewrite py_slice_from_in_range by lia.
  rewrite py_slice_in_range by lia.
  rewrite skipn_skipn.
  replace (p + b - (p + a)) with (b - a) by lia.
  replace (Z.to_nat a + Z.to_nat p)%nat with (Z.to_nat (p + a)) by lia.
  reflexivity.
Qed.

Lemma py_slice_from_of_tail {A : Type} (l : list A) (p a : Z) :
  0 <= p -> 0 <= a -> p + a <= len l ->
  py_slice_from (py_slice_from l p) a = py_slice_from l (p + a).
Proof.
  intros Hp Ha Hb.
  rewrite (py_slice_from_in_range (py_slice_from l p))
    by (rewrite len_py_slice_from; lia).
  rewrite !py_slice_from_in_range by lia.
  rewrite skipn_skipn.
  replace (Z.to_nat a + Z.to_nat p)%nat with (Z.to_nat (p + a)) by lia.
  reflexivity.
Qed.

(** The slice an agent is offered, when its pointer lies within the
    stream. *)
Lemma in_list_slice_offered {Elt : Type} (s : list Elt) (p : Z) :
  in_list_slice (mkInList s p (len s)) = py_slice_from s p.
Proof. reflexivity. Qed.

(** ** What the transitions check *)

Lemma check_new_starts_Some (vs : list pyval) (ds : list Z) :
  check_new_starts vs = Some ds -> vs = map PyInt ds /\ Forall (Z.le 0) ds.
Proof.
  revert ds; induction vs as [|v vs IH]; intros ds H; simpl in H.
  - injection H as <-; split; [reflexivity | constructor].
  - destruct v as [d| |l|]; try discriminate.
    destruct (Z.geb_spec d 0) as [Hd|Hd]; [|discriminate].
    destruct (check_new_starts vs) as [ds'|]; [|discriminate].
    injection H as <-.
    destruct (IH ds' eq_refl) as [-> Hall].
    split; [reflexivity | constructor; [lia | assumption]].
Qed.

Lemma check_new_starts_map (ds : list Z) :
  Forall (Z.le 0) ds -> check_new_starts (map PyInt ds) = Some ds.
Proof.
  induction 1 as [|d ds Hd _ IH]; simpl; [reflexivity|].
  destruct (Z.geb_spec d 0); [|lia].
  now rewrite IH.
Qed.

Lemma check_new_starts_None (vs : list pyval) :
  check_new_starts vs = None <-> ~ Forall nonneg_int vs.
Proof.
  split.
  - intros H Hall.
    assert (exists ds, vs = map PyInt ds /\ Forall (Z.le 0) ds) as (ds & -> & Hds).
    { clear H; induction Hall as [|v vs (d & -> & Hd) _ (ds & -> & Hds)].
      - exists []; split; [reflexivity | constructor].
      - exists (d :: ds); split; [reflexivity | constructor; assumption]. }
    rewrite check_new_starts_map in H by assumption; discriminate.
  - intros H.
    destruct (check_new_starts vs) as [ds|] eqn:E; [|reflexivity].
    exfalso; apply H.
    destruct (check_new_starts_Some _ _ E) as [-> Hds].
    clear E H; induction Hds as [|d ds Hd _ IH]; constructor;
      [exists d; split; [reflexivity | assumption] | assumption].
Qed.

Lemma add_starts_combine {Elt : Type} (ds : list Z) (in_lists : list (InList Elt)) :
  add_starts ds in_lists =
  map (fun p => fst p + il_start (snd p)) (combine ds in_lists).
Proof.
  revert in_lists; induction ds as [|d ds IH]; intros [|il ils]; simpl;
    try reflexivity.
  now rewrite IH.
Qed.

Lemma len_eqb_length {A B : Type} (l1 : list A) (l2 : list B) :
  (len l1 =? len l2) = Nat.eqb (length l1) (length l2).
Proof.
  unfold len.
  destruct (Z.eqb_spec (Z.of_nat (length l1)) (Z.of_nat (length l2)));
    destruct (Nat.eqb_spec (length l1) (length l2)); try reflexivity; lia.
Qed.

(** ** A failed agent is left alone *)

Lemma failed_step {Elt State Store : Type}
    (T : @transition_t Elt State Store) (sys : System Elt State Store)
    (e : exn) (ev : event Elt) :
  sys_failed sys = Some e ->
  sys_failed (step T sys ev) = Some e
  /\ sys_history (step T sys ev) = sys_history sys
  /\ sys_pointers (step T sys ev) = sys_pointers sys
  /\ sys_store (step T sys ev) = sys_store sys.
Proof.
  intros H; destruct ev as [i values|]; simpl.
  - repeat split; assumption.
  - unfold run; rewrite H; repeat split; assumption.
Qed.

Lemma failed_exec {Elt State Store : Type}
    (T : @transition_t Elt State Store) (events : list (event Elt)) :
  forall (sys : System Elt State Store) (e : exn),
  sys_failed sys = Some e ->
  sys_failed (exec T sys events) = Some e
  /\ sys_history (exec T sys events) = sys_history sys
  /\ sys_pointers (exec T sys events) = sys_pointers sys
  /\ sys_store (exec T sys events) = sys_store sys.
Proof.
  induction events as [|ev events IH]; intros sys e H; simpl.
  - repeat split; assumption.
  - destruct (failed_step T sys e ev H) as (H1 & H2 & H3 & H4).
    destruct (IH _ _ H1) as (K1 & K2 & K3 & K4).
    repeat split; congruence.
Qed.

Lemma invoke_raise {Elt State Store : Type}
    (T : @transition_t Elt State Store) (sys : System Elt State Store)
    (store' : Store) (e : exn) :
  T (in_lists_of (sys_streams sys) (sys_pointers sys))
    (sys_state sys) (sys_store sys) = (store', Raise e) ->
  sys_failed (invoke T sys) = Some e
  /\ sys_pointers (invoke T sys) = sys_pointers sys
  /\ sys_store (invoke T sys) = store'.
Proof.
  intros H; unfold invoke; rewrite H; simpl; repeat split.
Qed.

(** C8. A transition built by [iot] or [iot_merge] hands back an empty
    list of output values and the state it was given; the store after the
    invocation is the store the callback left, so the only effects on
    streams are those of the callback, and the pointers are the only
    information returned. *)
Theorem transition_frame :
  forall (Elt State Store : Type)
    (func : list Elt -> Store -> Store * result pyval)
    (mfunc : list (list Elt) -> Store -> Store * result pyval)
    (in_lists : list (InList Elt)) (state : State) (store : Store),
    match snd (iot_transition func in_lists state store) with
    | Ok (outs, state', _) => outs = [] /\ state' = state
    | Raise _ => True
    end
    /\ fst (iot_transition func in_lists state store) =
       match in_lists with
       | il :: _ => fst (func (in_list_slice il) store)
       | [] => store
       end
    /\ match snd (iot_merge_transition mfunc in_lists state store) with
       | Ok (outs, state', _) => outs = [] /\ state' = state
       | Raise _ => True
       end
    /\ fst (iot_merge_transition mfunc in_lists state store) =
       fst (mfunc (map in_list_slice in_lists) store).
Proof.
  intros Elt State Store func mfunc in_lists state store.
  split; [|split; [|split]].
  - unfold iot_transition.
    destruct in_lists as [|il ils]; simpl; [exact I|].
    destruct (func (in_list_slice il) store) as [store' [[d| |l|]|e]]; simpl;
      try exact I.
    destruct (d >=? 0); simpl; [split; reflexivity | exact I].
  - unfold iot_transition.
    destruct in_lists as [|il ils]; simpl; [reflexivity|].
    destruct (func (in_list_slice il) store) as [store' [[d| |l|]|e]]; simpl;
      try reflexivity.
    destruct (d >=? 0); reflexivity.
  - unfold iot_merge_transition.
    destruct (mfunc (map in_list_slice in_lists) store)
      as [store' [[d| |vs|]|e]]; simpl; try exact I.
    destruct (len vs =? len (map in_list_slice in_lists)); simpl; [|exact I].
    destruct (check_new_starts vs); simpl; [split; reflexivity | exact I].
  - unfold iot_merge_transition.
    destruct (mfunc (map in_list_slice in_lists) store)
      as [store' [[d| |vs|]|e]]; simpl; try reflexivity.
    destruct (len vs =? len (map in_list_slice in_lists)); simpl;
      [|reflexivity].
    destruct (check_new_starts vs); reflexivity.
Qed.

(** The transitions do return: on the slice [[2; 3]] of [[1; 2; 3]] the
    callback that reports the whole slice moves the pointer from 1 to 3. *)
Example transition_frame_run :
  iot_transition take_all [mkInList [1; 2; 3] 1 3] tt tt
  = (tt, Ok ([], tt, [3]))
  /\ iot_merge_transition take_all_merge
       [mkInList [1; 2; 3] 1 3; mkInList [4; 5] 0 2] tt tt
     = (tt, Ok ([], tt, [3; 2])).
Proof. split; reflexivity. Qed.

Lemma iot_transition_int {Elt State Store : Type}
    (func : list Elt -> Store -> Store * result pyval)
    (il : InList Elt) (ils : list (InList Elt)) (state : State)
    (store store' : Store) (d : Z) :
  func (in_list_slice il) store = (store', Ok (PyInt d)) ->
  iot_transition func (il :: ils) state store =
  if d >=? 0 then (store', Ok ([], state, [d + il_start il]))
  else (store', Raise AssertionError).
Proof. intros H; unfold iot_transition; now rewrite H. Qed.

Lemma iot_merge_transition_list {Elt State Store : Type}
    (mfunc : list (list Elt) -> Store -> Store * result pyval)
    (in_lists : list (InList Elt)) (state : State)
    (store store' : Store) (vs : list pyval) :
  mfunc (map in_list_slice in_lists) store = (store', Ok (PyList vs)) ->
  iot_merge_transition mfunc in_lists state store =
  if Nat.eqb (length vs) (length in_lists)
  then match check_new_starts vs with
       | Some ds => (store', Ok ([], state, add_starts ds in_lists))
       | None => (store', Raise AssertionError)
       end
  else (store', Raise AssertionError).
Proof.
  intros H; unfold iot_merge_transition; rewrite H.
  now rewrite len_eqb_length, length_map.
Qed.

(** C1, as the code has it.  When the callback returns normally, a
    transition built by [iot] raises [AssertionError] exactly when the
    value is not a nonnegative integer (so a pointer below the starting
    pointer is rejected), and one built by [iot_merge] exactly when the
    value is not a list of nonnegative integers, one per input stream (so a
    wrong arity is rejected).  Every nonnegative displacement is accepted,
    whatever the length of the slice: the pointer handed back is the
    starting pointer plus the displacement.  In the runtime an invocation
    that raises is fatal to the agent: it is marked failed, keeps its
    pointers and is not invoked again. *)
Theorem transition_contract_checks :
  forall (Elt State Store : Type)
    (func : list Elt -> Store -> Store * result pyval)
    (mfunc : list (list Elt) -> Store -> Store * result pyval)
    (il : InList Elt) (ils in_lists : list (InList Elt)) (state : State)
    (store store1 store2 : Store) (v mv : pyval),
    func (in_list_slice il) store = (store1, Ok v) ->
    mfunc (map in_list_slice in_lists) store = (store2, Ok mv) ->
    (~ nonneg_int v <->
     iot_transition func (il :: ils) state store
     = (store1, Raise AssertionError))
    /\ (forall d, v = PyInt d -> 0 <= d ->
        iot_transition func (il :: ils) state store
        = (store1, Ok ([], state, [d + il_start il])))
    /\ (~ well_shaped (length in_lists) mv <->
        iot_merge_transition mfunc in_lists state store
        = (store2, Raise AssertionError))
    /\ (forall ds, mv = PyList (map PyInt ds) ->
        length ds = length in_lists -> Forall (Z.le 0) ds ->
        iot_merge_transition mfunc in_lists state store
        = (store2, Ok ([], state,
                       map (fun p => fst p + il_start (snd p))
                           (combine ds in_lists))))
    /\ (forall (T : @transition_t Elt State Store)
               (sys : System Elt State Store) (store' : Store) (e : exn)
               (events : list (event Elt)),
        T (in_lists_of (sys_streams sys) (sys_pointers sys))
          (sys_state sys) (sys_store sys) = (store', Raise e) ->
        sys_failed (invoke T sys) = Some e
        /\ sys_pointers (exec T (invoke T sys) events) = sys_pointers sys
        /\ sys_history (exec T (invoke T sys) events)
           = sys_history (invoke T sys)).
Proof.
  intros Elt State Store func mfunc il ils in_lists state store store1 store2
         v mv Hf Hm.
  split; [|split; [|split; [|split]]].
  - unfold iot_transition; rewrite Hf.
    split.
    + intros Hv; destruct v as [d| |l|]; try reflexivity.
      destruct (Z.geb_spec d 0) as [Hd|Hd]; [|reflexivity].
      exfalso; apply Hv; exists d; split; [reflexivity | lia].
    + intros H (d & -> & Hd).
      destruct (Z.geb_spec d 0); [discriminate | lia].
  - intros d -> Hd.
    rewrite (iot_transition_int _ _ _ _ _ _ _ Hf).
    destruct (Z.geb_spec d 0); [reflexivity | lia].
  - split.
    + intros Hv; destruct mv as [d| |vs|];
        try (unfold iot_merge_transition; rewrite Hm; reflexivity).
      rewrite (iot_merge_transition_list _ _ _ _ _ _ Hm).
      destruct (Nat.eqb_spec (length vs) (length in_lists)) as [Hl|Hl];
        [|reflexivity].
      destruct (check_new_starts vs) as [ds|] eqn:E; [|reflexivity].
      exfalso; apply Hv; exists vs; repeat split; try assumption.
      destruct (Forall_dec nonneg_int) with (l := vs) as [Hall|Hall];
        [| assumption | apply check_new_starts_None in Hall; congruence].
      intros [d| |l|];
        try (right; intros (d' & Hd' & _); discriminate).
      destruct (Z_le_dec 0 d) as [Hd|Hd].
      * left; exists d; split; [reflexivity | assumption].
      * right; intros (d' & Hd' & Hle); injection Hd' as ->; lia.
    + intros H (vs & -> & Hl & Hall).
      rewrite (iot_merge_transition_list _ _ _ _ _ _ Hm) in H.
      rewrite Hl, Nat.eqb_refl in H.
      destruct (check_new_starts vs) as [ds|] eqn:E; [discriminate|].
      apply check_new_starts_None in E; contradiction.
  - intros ds -> Hl Hds.
    rewrite (iot_merge_transition_list _ _ _ _ _ _ Hm).
    rewrite length_map, Hl, Nat.eqb_refl.
    rewrite check_new_starts_map by assumption.
    now rewrite add_starts_combine.
  - intros T sys store' e events HT.
    destruct (invoke_raise T sys store' e HT) as (H1 & H2 & H3).
    destruct (failed_exec T events _ _ H1) as (K1 & K2 & K3 & K4).
    repeat split; congruence.
Qed.

(** The theorem at work: the callback that reports one element more than
    its slice holds is accepted, and the pointer leaves the stream. *)
Lemma transition_contract_checks_witness :
  overshoot (in_list_slice (mkInList [7] 0 1)) tt = (tt, Ok (PyInt 2))
  /\ take_all_merge (map in_list_slice [mkInList [7] 0 1; mkInList [] 0 0]) tt
     = (tt, Ok (PyList [PyInt 1; PyInt 0]))
  /\ iot_transition overshoot [mkInList [7] 0 1] tt tt
     = (tt, Ok ([], tt, [2 + 0])).
Proof.
  split; [reflexivity | split; [reflexivity |]].
  refine (proj1 (proj2 (transition_contract_checks Z unit unit
            overshoot take_all_merge (mkInList [7] 0 1) []
            [mkInList [7] 0 1; mkInList [] 0 0] tt tt tt tt
            (PyInt 2) (PyList [PyInt 1; PyInt 0]) eq_refl eq_refl))
          2 eq_refl _).
  lia.
Defined.

(** C1, as the specification words it, fails: on the stream [[7]] with the
    pointer at 0, the callback reports the displacement 2; the pointer 2
    lies beyond the stream length 1, and the transition returns it instead of
    raising. *)
Lemma pointer_beyond_stream_accepted :
  let il := mkInList [7] 0 1 in
  il_stop il = len (il_list il)
  /\ fst (overshoot (in_list_slice il) tt) = tt
  /\ snd (overshoot (in_list_slice il) tt) = Ok (PyInt 2)
  /\ il_stop il < 2 + il_start il
  /\ iot_transition overshoot [il] tt tt = (tt, Ok ([], tt, [2]))
  /\ ~ (exists e, snd (iot_transition overshoot [il] tt tt) = Raise e).
Proof.
  cbv zeta; repeat split; try reflexivity.
  intros [e He]; vm_compute in He; discriminate.
Qed.

(** ** The sliding window *)

Lemma length_py_range (n : Z) : length (py_range n) = Z.to_nat n.
Proof. unfold py_range; now rewrite length_map, length_seq. Qed.

Lemma len_py_range (n : Z) : 0 <= n -> len (py_range n) = n.
Proof. intros H; unfold len; rewrite length_py_range; lia. Qed.

Lemma in_py_range (n i : Z) : In i (py_range n) <-> 0 <= i < n.
Proof.
  unfold py_range; rewrite in_map_iff; split.
  - intros (k & <- & Hk); apply in_seq in Hk; lia.
  - intros H; exists (Z.to_nat i); split; [lia | apply in_seq; lia].
Qed.

(** The number of full windows, and how far they reach. *)
Lemma steps_bounds (n w s : Z) :
  1 <= s -> w <= n ->
  1 <= (n - w) / s + 1
  /\ ((n - w) / s) * s <= n - w
  /\ n - w < ((n - w) / s + 1) * s.
Proof.
  intros Hs Hn.
  pose proof (Z.div_pos (n - w) s ltac:(lia) ltac:(lia)).
  pose proof (Z.mul_div_le (n - w) s ltac:(lia)).
  pose proof (Z.mul_succ_div_gt (n - w) s ltac:(lia)).
  repeat split; lia.
Qed.

Lemma extend_short {Elt Out : Type} (self : sliding_window_test Elt Out)
    (A : list Elt) :
  len A < window_size self -> extend A self = (self, Ok (PyInt 0)).
Proof.
  intros H; unfold extend.
  destruct (Z.ltb_spec (len A) (window_size self)); [reflexivity | lia].
Qed.

Lemma extend_full {Elt Out : Type} (self : sliding_window_test Elt Out)
    (A : list Elt) :
  1 <= step_size self -> window_size self <= len A ->
  extend A self =
  (let steps := (len A - window_size self) / step_size self + 1 in
   let results := map (fun i => sw_func self (window self A i))
                      (py_range steps) in
   ({| sw_func := sw_func self;
       out_stream := out_stream self ++ results;
       window_size := window_size self;
       step_size := step_size self;
       output := results |},
    Ok (PyInt (steps * step_size self)))).
Proof.
  intros Hs Hn; unfold extend.
  destruct (steps_bounds (len A) (window_size self) (step_size self) Hs Hn)
    as (H1 & _ & _).
  destruct (Z.ltb_spec (len A) (window_size self)); [lia|].
  destruct (Z.eqb_spec (step_size self) 0); [lia|].
  rewrite (Z.add_comm 1).
  destruct (Z.ltb_spec
              ((len A - window_size self) / step_size self + 1) 0); [lia|].
  reflexivity.
Qed.

(** C2, as the code has it.  With [window_size >= 1] and [step_size >= 1],
    on a slice of [n] elements: if [n < window_size] nothing is appended and
    0 is reported; otherwise [steps = (n - window_size) / step_size + 1]
    results are appended, result [i] being the reducer on the full window
    [[i*step_size, i*step_size + window_size)], and [steps * step_size] is
    reported.  Through the transition of [iot] the pointer moves by the
    reported count, and when that count is at most [n] -- as it is whenever
    [step_size <= window_size] -- the [n - steps * step_size] elements that
    remain are the head of the next slice. *)
Theorem sliding_window_extend :
  forall (Elt Out State : Type) (self : sliding_window_test Elt Out)
    (stream : list Elt) (p : Z) (state : State),
    1 <= window_size self -> 1 <= step_size self ->
    0 <= p <= len stream ->
    let w := window_size self in
    let s := step_size self in
    let A := in_list_slice (mkInList stream p (len stream)) in
    let n := len A in
    n = len stream - p
    /\ (n < w ->
        extend A self = (self, Ok (PyInt 0))
        /\ iot_transition extend [mkInList stream p (len stream)] state self
           = (self, Ok ([], state, [0 + p]))
        /\ in_list_slice (mkInList stream (0 + p) (len stream)) = A)
    /\ (w <= n ->
        let steps := (n - w) / s + 1 in
        let results :=
          map (fun i => sw_func self (py_slice A (i * s) (i * s + w)))
              (py_range steps) in
        let self' :=
          {| sw_func := sw_func self;
             out_stream := out_stream self ++ results;
             window_size := w;
             step_size := s;
             output := results |} in
        1 <= steps
        /\ len results = steps
        /\ (forall i, 0 <= i < steps ->
            len (py_slice A (i * s) (i * s + w)) = w)
        /\ extend A self = (self', Ok (PyInt (steps * s)))
        /\ iot_transition extend [mkInList stream p (len stream)] state self
           = (self', Ok ([], state, [steps * s + p]))
        /\ (s <= w -> steps * s <= n)
        /\ (steps * s <= n ->
            len (py_slice_from A (steps * s)) = n - steps * s
            /\ in_list_slice (mkInList stream (steps * s + p) (len stream))
               = py_slice_from A (steps * s))).
Proof.
  intros Elt Out State self stream p state Hw Hs Hp w s A n.
  assert (HA : A = py_slice_from stream p) by reflexivity.
  assert (Hn : n = len stream - p).
  { unfold n; rewrite HA; apply len_py_slice_from; assumption. }
  split; [assumption | split].
  - intros Hlt.
    pose proof (extend_short self A Hlt) as He.
    split; [assumption | split].
    + unfold iot_transition; fold A; rewrite He; reflexivity.
    + reflexivity.
  - intros Hge steps results self'.
    destruct (steps_bounds n w s Hs Hge) as (H1 & H2 & H3).
    fold steps in H1, H3.
    pose proof (extend_full self A Hs Hge) as He.
    cbv zeta in He; fold w s n steps in He.
    split; [assumption | split; [| split; [| split; [| split; [| split]]]]].
    + unfold results, len; rewrite length_map, length_py_range; lia.
    + intros i Hi.
      rewrite len_py_slice; [lia | nia | fold n; nia].
    + exact He.
    + unfold iot_transition; fold A; rewrite He.
      destruct (Z.geb_spec (steps * s) 0); [reflexivity | nia].
    + intros Hsw; unfold steps; nia.
    + intros Hle; split.
      * rewrite len_py_slice_from; [reflexivity | fold n; nia].
      * rewrite in_list_slice_offered, HA.
        rewrite py_slice_from_of_tail by nia.
        f_equal; lia.
Qed.

(** The theorem at work on the first round of [test_iot_class]: ten
    elements, windows of five advancing by two. *)
Lemma sliding_window_extend_witness :
  1 <= window_size TestIotClass.sw
  /\ 1 <= step_size TestIotClass.sw
  /\ 0 <= 0 <= len (arange 0 10)
  /\ window_size TestIotClass.sw <= len (arange 0 10)
  /\ snd (extend (arange 0 10) TestIotClass.sw) = Ok (PyInt 6)
  /\ in_list_slice (mkInList (arange 0 10) 6 10) = [6; 7; 8; 9].
Proof.
  assert (H1 : 1 <= window_size TestIotClass.sw) by (simpl; lia).
  assert (H2 : 1 <= step_size TestIotClass.sw) by (simpl; lia).
  assert (H3 : 0 <= 0 <= len (arange 0 10)) by (vm_compute; split; discriminate).
  assert (H4 : window_size TestIotClass.sw <= len (arange 0 10))
    by (vm_compute; discriminate).
  pose proof (sliding_window_extend Z Z unit TestIotClass.sw (arange 0 10) 0 tt
                H1 H2 H3) as H.
  cbv zeta in H.
  destruct H as (_ & _ & H).
  destruct (H H4) as (_ & _ & _ & He & _ & Hsw & Hrest).
  destruct (Hrest (Hsw ltac:(simpl; lia))) as (_ & Hnext).
  split; [exact H1 | split; [exact H2 | split; [exact H3 |]]].
  split; [exact H4 | split; [exact (f_equal snd He) | exact Hnext]].
Defined.

(** C2, as the specification words it, fails when [step_size] exceeds
    [window_size].  With a window of one element advancing by two and a
    slice of one element, one window is reduced and 2 elements are reported
    consumed out of 1: the [n - steps * step_size = -1] remaining elements
    the statement promises do not exist.  The pointer leaves the stream, and
    of the elements 8 and 9 appended next only 9 is offered. *)
Lemma step_beyond_window_overshoots :
  let A := [7] in
  let steps := (len A - window_size hopping) / step_size hopping + 1 in
  1 <= window_size hopping
  /\ 1 <= step_size hopping
  /\ window_size hopping <= len A
  /\ snd (extend A hopping) = Ok (PyInt (steps * step_size hopping))
  /\ out_stream (fst (extend A hopping)) = [7]
  /\ ~ (steps * step_size hopping <= len A)
  /\ len (py_slice_from A (steps * step_size hopping))
     <> len A - steps * step_size hopping
  /\ snd (iot_transition extend [mkInList A 0 1] tt hopping)
     = Ok ([], tt, [2])
  /\ in_list_slice (mkInList (A ++ [8; 9]) 2 3) = [9].
Proof.
  vm_compute; repeat split; try discriminate; try reflexivity.
  - intros H; apply H; reflexivity.
Qed.

(** ** The tests *)

(** C3.  [test_iot_class]: with windows of five advancing by two and a sum
    reducer, after the stream is extended with 0..9 and the agent runs the
    output is [[10; 20; 30]], the sums of the windows 0..4, 2..6 and 4..8;
    the pointer stands at 6, so that 9, which no window covered, is among
    the unread elements; after the extension with 10..19 and a second run
    the output is [[10; 20; 30; 40; 50; 60; 70; 80]]. *)
Theorem test_iot_class_outputs :
  TestIotClass.y TestIotClass.sys1 = [10; 20; 30]
  /\ map (window TestIotClass.sw (arange 0 10)) [0; 1; 2]
     = [[0; 1; 2; 3; 4]; [2; 3; 4; 5; 6]; [4; 5; 6; 7; 8]]
  /\ map TestIotClass.np_sum
         (map (window TestIotClass.sw (arange 0 10)) [0; 1; 2])
     = [10; 20; 30]
  /\ sys_pointers TestIotClass.sys1 = [6]
  /\ py_slice_from (in_stream TestIotClass.sys1) 6 = [6; 7; 8; 9]
  /\ TestIotClass.y TestIotClass.sys2 = [10; 20; 30; 40; 50; 60; 70; 80]
  /\ sys_pointers TestIotClass.sys2 = [16]
  /\ sys_failed TestIotClass.sys2 = None.
Proof.
  assert (Hrun1 : TestIotClass.sys1
                  = invoke TestIotClass.transition
                      (stream_extend 0 (arange 0 10) TestIotClass.sys0))
    by reflexivity.
  assert (Hrun2 : TestIotClass.sys2
                  = invoke TestIotClass.transition
                      (stream_extend 0 (arange 10 20) TestIotClass.sys1))
    by reflexivity.
  assert (H1 : TestIotClass.y TestIotClass.sys1 = [10; 20; 30])
    by (rewrite Hrun1; reflexivity).
  assert (H2 : TestIotClass.y TestIotClass.sys2
               = [10; 20; 30; 40; 50; 60; 70; 80])
    by (rewrite Hrun2; vm_compute; reflexivity).
  split; [exact H1 | split; [reflexivity | split; [reflexivity |]]].
  split; [reflexivity | split; [reflexivity | split; [exact H2 |]]].
  split; reflexivity.
Qed.

(** C5.  [test_iot_merge]: after [x] is extended with 0..4 and the agent
    runs, and [y] is extended with 100..108 and the agent runs again, the
    output holds exactly the five rows [[i; 100 + i]].  The first call is
    offered 0..4 and an empty slice, merges nothing and leaves both
    pointers at 0; the second call is offered the slices from those
    pointers on and moves both pointers to 5; no row is emitted twice.  A
    further extension of [x] with 5 and 6 offers only the slices beyond the
    pointers, [[5; 6]] and 105..108, and adds only the two new rows. *)
Theorem test_iot_merge_outputs :
  TestIotMerge.z TestIotMerge.sys1 = []
  /\ sys_pointers TestIotMerge.sys1 = [0; 0]
  /\ TestIotMerge.z TestIotMerge.sys2
     = [[0; 100]; [1; 101]; [2; 102]; [3; 103]; [4; 104]]
  /\ sys_pointers TestIotMerge.sys2 = [5; 5]
  /\ map (fun inv => map in_list_slice (inv_in_lists inv))
         (sys_history TestIotMerge.sys2)
     = [[[0; 1; 2; 3; 4]; []];
        [[0; 1; 2; 3; 4]; [100; 101; 102; 103; 104; 105; 106; 107; 108]]]
  /\ map returned_pointers (sys_history TestIotMerge.sys2)
     = [Some [0; 0]; Some [5; 5]]
  /\ map (fun inv => Some (map il_start (inv_in_lists inv)))
         (skipn 1 (sys_history TestIotMerge.sys2))
     = firstn 1 (map returned_pointers (sys_history TestIotMerge.sys2))
  /\ NoDup (TestIotMerge.z TestIotMerge.sys2)
  /\ map (fun inv => map in_list_slice (inv_in_lists inv))
         (skipn 2 (sys_history TestIotMerge.sys3))
     = [[[5; 6]; [105; 106; 107; 108]]]
  /\ TestIotMerge.z TestIotMerge.sys3
     = TestIotMerge.z TestIotMerge.sys2 ++ [[5; 105]; [6; 106]].
Proof.
  vm_compute; repeat split; try reflexivity.
  repeat (constructor; [simpl; intuition discriminate|]); constructor.
Qed.

(** ** Runs: what every history satisfies *)

Section Runs.
Context {Elt State Store : Type}.
Implicit Types (sys : System Elt State Store) (inv : Invocation Elt State)
               (h : list (Invocation Elt State)).

Lemma in_lists_of_length (streams : list (list Elt)) (pointers : list Z) :
  length streams = length pointers ->
  length (in_lists_of streams pointers) = length streams.
Proof.
  revert pointers; induction streams as [|s streams IH]; intros [|p ps] H;
    simpl in *; try reflexivity; try discriminate.
  f_equal; apply IH; lia.
Qed.

Lemma in_lists_of_starts (streams : list (list Elt)) (pointers : list Z) :
  length streams = length pointers ->
  map il_start (in_lists_of streams pointers) = pointers.
Proof.
  revert pointers; induction streams as [|s streams IH]; intros [|p ps] H;
    simpl in *; try reflexivity; try discriminate.
  f_equal; apply IH; lia.
Qed.

Lemma in_lists_of_stops (streams : list (list Elt)) (pointers : list Z) :
  Forall (fun il => il_stop il = len (il_list il))
         (in_lists_of streams pointers).
Proof.
  revert pointers; induction streams as [|s streams IH]; intros [|p ps];
    simpl; constructor; [reflexivity | apply IH].
Qed.

Lemma extend_nth_length (i : nat) (values : list Elt)
    (streams : list (list Elt)) :
  length (extend_nth i values streams) = length streams.
Proof.
  revert i; induction streams as [|s streams IH]; intros [|i]; simpl;
    try reflexivity.
  now rewrite IH.
Qed.

Lemma trace_snoc_ok (p q ps : list Z) h inv (failed : bool) :
  trace p h q failed -> failed = false ->
  starts inv = q -> returned_pointers inv = Some ps ->
  trace p (h ++ [inv]) ps false.
Proof.
  intros Htr; revert inv ps.
  induction Htr as [p|p inv0 h q ps0 failed Hs Hr Htr IH|p inv0 Hs Hr];
    intros inv ps Hf Hq Hps; simpl.
  - apply trace_ok with (ps := ps); [assumption | assumption | constructor].
  - apply trace_ok with (ps := ps0); [assumption | assumption |].
    apply IH; assumption.
  - discriminate.
Qed.

Lemma trace_snoc_raise (p q : list Z) h inv (failed : bool) :
  trace p h q failed -> failed = false ->
  starts inv = q -> returned_pointers inv = None ->
  trace p (h ++ [inv]) q true.
Proof.
  intros Htr; revert inv.
  induction Htr as [p|p inv0 h q ps0 failed Hs Hr Htr IH|p inv0 Hs Hr];
    intros inv Hf Hq Hps; simpl.
  - apply trace_raise; assumption.
  - apply trace_ok with (ps := ps0); [assumption | assumption |].
    apply IH; assumption.
  - discriminate.
Qed.

Lemma trace_head (p q : list Z) inv h (failed : bool) :
  trace p (inv :: h) q failed -> starts inv = p.
Proof. intros H; inversion H; subst; reflexivity. Qed.

Lemma trace_chained (p q : list Z) h (failed : bool) :
  trace p h q failed -> chained h.
Proof.
  induction 1 as [p|p inv0 h q ps0 failed Hs Hr Htr IH|p inv0 Hs Hr];
    intros k inv1 inv2 H1 H2.
  - destruct k; discriminate.
  - destruct k as [|k]; simpl in H1, H2.
    + injection H1 as <-.
      destruct h as [|inv' h']; simpl in H2; [discriminate|].
      injection H2 as <-.
      now rewrite (trace_head _ _ _ _ _ Htr).
    + exact (IH k inv1 inv2 H1 H2).
  - destruct k as [|[|k]]; discriminate.
Qed.

Lemma chained_non_decreasing h : chained h -> advancing h -> non_decreasing h.
Proof.
  intros Hc Ha k inv1 inv2 ps1 ps2 H1 H2 Hr1 Hr2.
  pose proof (Hc k inv1 inv2 H1 H2) as Hs.
  rewrite Hr1 in Hs; injection Hs as ->.
  pose proof (Ha inv2 ps2 (nth_error_In _ _ H2) Hr2) as HF.
  unfold starts; clear -HF.
  induction HF; simpl; constructor; assumption.
Qed.

Lemma new_system_invariant (n : nat) (state : State) (store : Store) :
  run_invariant n (new_system (Elt := Elt) n state store).
Proof.
  unfold run_invariant, new_system; simpl.
  rewrite !repeat_length.
  repeat split; try constructor.
  - intros inv ps [].
  - intros inv [].
Qed.

Lemma step_run_invariant (n : nat) (T : @transition_t Elt State Store)
    sys (ev : event Elt) :
  advances n T -> run_invariant n sys -> run_invariant n (step T sys ev).
Proof.
  intros HT (Hs & Hp & Htr & Ha & Ho).
  destruct ev as [i values|]; simpl.
  - unfold run_invariant, stream_extend, has_failed; simpl.
    rewrite extend_nth_length; repeat split; assumption.
  - unfold run.
    destruct (sys_failed sys) as [e|] eqn:Hf;
      [repeat split; assumption|].
    destruct (sys_ready sys); [|repeat split; assumption].
    assert (Hfl : has_failed sys = false) by (unfold has_failed; now rewrite Hf).
    assert (Hil : length (in_lists_of (sys_streams sys) (sys_pointers sys)) = n)
      by (rewrite in_lists_of_length; congruence).
    unfold invoke.
    destruct (T (in_lists_of (sys_streams sys) (sys_pointers sys))
                (sys_state sys) (sys_store sys)) as [store' r] eqn:HTr.
    destruct r as [[[outs state'] ps]|e]; unfold run_invariant, has_failed;
      simpl.
    + pose proof (HT _ _ _ _ _ _ _ Hil HTr) as HF.
      repeat split.
      * assumption.
      * rewrite <- (Forall2_length HF); assumption.
      * apply trace_snoc_ok with (q := sys_pointers sys) (failed := has_failed sys);
          try assumption; try reflexivity.
        unfold starts; simpl; apply in_lists_of_starts; congruence.
      * intros inv ps' Hin Hr.
        apply in_app_or in Hin as [Hin|[<-|[]]]; [now apply Ha|].
        simpl in Hr; injection Hr as <-; exact HF.
      * intros inv Hin.
        apply in_app_or in Hin as [Hin|[<-|[]]]; [now apply Ho|].
        apply in_lists_of_stops.
    + repeat split.
      * assumption.
      * assumption.
      * apply trace_snoc_raise with (failed := has_failed sys);
          try assumption; try reflexivity.
        unfold starts; simpl; apply in_lists_of_starts; congruence.
      * intros inv ps' Hin Hr.
        apply in_app_or in Hin as [Hin|[<-|[]]]; [now apply Ha|].
        discriminate.
      * intros inv Hin.
        apply in_app_or in Hin as [Hin|[<-|[]]]; [now apply Ho|].
        apply in_lists_of_stops.
Qed.

Lemma exec_run_invariant (n : nat) (T : @transition_t Elt State Store)
    (events : list (event Elt)) :
  advances n T ->
  forall sys, run_invariant n sys -> run_invariant n (exec T sys events).
Proof.
  intros HT; induction events as [|ev events IH]; intros sys H; simpl.
  - assumption.
  - apply IH, step_run_invariant; assumption.
Qed.

End Runs.

(** ** The two transitions advance, and stay within the streams when the
    callback stays within its slices *)

Section TransitionsAdvance.
Context {Elt State Store : Type}.

Lemma add_starts_advance (ds : list Z) (in_lists : list (InList Elt)) :
  length ds = length in_lists -> Forall (Z.le 0) ds ->
  Forall2 (fun il p => il_start il <= p) in_lists (add_starts ds in_lists).
Proof.
  revert ds; induction in_lists as [|il ils IH]; intros [|d ds] Hl Hds;
    simpl in *; try discriminate; constructor.
  - inversion Hds; subst; lia.
  - apply IH; [lia | now inversion Hds].
Qed.

Lemma add_starts_within (ds : list Z) (in_lists : list (InList Elt)) :
  length ds = length in_lists ->
  Forall (fun il => 0 <= il_start il <= il_stop il
                    /\ il_stop il = len (il_list il)) in_lists ->
  Forall2 (fun A v => forall d, v = PyInt d -> d <= len A)
          (map in_list_slice in_lists) (map PyInt ds) ->
  Forall2 (fun il p => p <= il_stop il) in_lists (add_starts ds in_lists).
Proof.
  revert ds; induction in_lists as [|il ils IH]; intros [|d ds] Hl Hil HF;
    simpl in *; try discriminate; constructor.
  - inversion Hil as [|? ? (H0 & H1) _]; subst.
    inversion HF as [|? ? ? ? Hd _]; subst.
    specialize (Hd d eq_refl).
    unfold in_list_slice in Hd.
    rewrite len_py_slice in Hd; lia.
  - apply IH; [lia | now inversion Hil | now inversion HF].
Qed.

Lemma iot_advances (func : list Elt -> Store -> Store * result pyval) :
  advances 1 (@iot_transition Elt State Store func).
Proof.
  intros in_lists state store store' outs state' ps Hl HT.
  destruct in_lists as [|il [|il' ils]]; try discriminate.
  unfold iot_transition in HT.
  destruct (func (in_list_slice il) store) as [store1 [[d| |l|]|e]];
    try discriminate.
  destruct (Z.geb_spec d 0); [|discriminate].
  injection HT as _ _ _ <-.
  repeat constructor; lia.
Qed.

Lemma iot_within (func : list Elt -> Store -> Store * result pyval) :
  within_slice func -> stays_within 1 (@iot_transition Elt State Store func).
Proof.
  intros Hw in_lists state store store' outs state' ps Hl Hil HT.
  destruct in_lists as [|il [|il' ils]]; try discriminate.
  inversion Hil as [|? ? (H0 & H1) _]; subst.
  unfold iot_transition in HT.
  destruct (func (in_list_slice il) store) as [store1 [[d| |l|]|e]] eqn:Hf;
    try discriminate.
  destruct (Z.geb_spec d 0); [|discriminate].
  injection HT as _ _ _ <-.
  pose proof (Hw _ _ _ _ Hf) as Hd.
  unfold in_list_slice in Hd.
  rewrite len_py_slice in Hd by lia.
  repeat constructor; lia.
Qed.

Lemma iot_merge_advances (n : nat)
    (mfunc : list (list Elt) -> Store -> Store * result pyval) :
  advances n (@iot_merge_transition Elt State Store mfunc).
Proof.
  intros in_lists state store store' outs state' ps Hl HT.
  destruct (mfunc (map in_list_slice in_lists) store)
    as [store1 [v|e]] eqn:Hm;
    [|unfold iot_merge_transition in HT; rewrite Hm in HT; discriminate].
  destruct v as [d| |vs|];
    try (unfold iot_merge_transition in HT; rewrite Hm in HT; discriminate).
  rewrite (iot_merge_transition_list _ _ _ _ _ _ Hm) in HT.
  destruct (Nat.eqb_spec (length vs) (length in_lists)) as [Hlen|];
    [|discriminate].
  destruct (check_new_starts vs) as [ds|] eqn:E; [|discriminate].
  injection HT as _ _ _ <-.
  destruct (check_new_starts_Some _ _ E) as [-> Hds].
  rewrite length_map in Hlen.
  apply add_starts_advance; assumption.
Qed.

Lemma iot_merge_within (n : nat)
    (mfunc : list (list Elt) -> Store -> Store * result pyval) :
  within_slices mfunc ->
  stays_within n (@iot_merge_transition Elt State Store mfunc).
Proof.
  intros Hw in_lists state store store' outs state' ps Hl Hil HT.
  destruct (mfunc (map in_list_slice in_lists) store)
    as [store1 [v|e]] eqn:Hm;
    [|unfold iot_merge_transition in HT; rewrite Hm in HT; discriminate].
  destruct v as [d| |vs|];
    try (unfold iot_merge_transition in HT; rewrite Hm in HT; discriminate).
  rewrite (iot_merge_transition_list _ _ _ _ _ _ Hm) in HT.
  destruct (Nat.eqb_spec (length vs) (length in_lists)) as [Hlen|];
    [|discriminate].
  destruct (check_new_starts vs) as [ds|] eqn:E; [|discriminate].
  injection HT as _ _ _ <-.
  destruct (check_new_starts_Some _ _ E) as [-> Hds].
  rewrite length_map in Hlen.
  apply add_starts_within; try assumption.
  exact (Hw _ _ _ _ Hm).
Qed.

(** *** Runs that stay within the streams *)

Lemma extend_nth_bounded (i : nat) (values : list Elt)
    (streams : list (list Elt)) (pointers : list Z) :
  Forall2 (fun s p => 0 <= p <= len s) streams pointers ->
  Forall2 (fun s p => 0 <= p <= len s) (extend_nth i values streams) pointers.
Proof.
  intros H; revert i; induction H as [|s p streams pointers Hp Htl IH];
    intros [|i]; simpl; constructor; try assumption.
  - rewrite len_app; pose proof (len_nonneg values); lia.
  - apply IH.
Qed.

Lemma in_lists_of_in_range (streams : list (list Elt)) (pointers : list Z) :
  Forall2 (fun s p => 0 <= p <= len s) streams pointers ->
  Forall (fun il => 0 <= il_start il <= il_stop il
                    /\ il_stop il = len (il_list il))
         (in_lists_of streams pointers).
Proof.
  induction 1; simpl; constructor; simpl; auto.
Qed.

Lemma in_lists_of_new_pointers (streams : list (list Elt))
    (pointers ps : list Z) :
  Forall2 (fun s p => 0 <= p <= len s) streams pointers ->
  Forall2 (fun il p => il_start il <= p) (in_lists_of streams pointers) ps ->
  Forall2 (fun il p => p <= il_stop il) (in_lists_of streams pointers) ps ->
  Forall2 (fun s p => 0 <= p <= len s) streams ps
  /\ Forall2 (fun il p => p <= len (il_list il))
             (in_lists_of streams pointers) ps.
Proof.
  intros H; revert ps; induction H as [|s p streams pointers Hp _ IH];
    intros ps H1 H2; simpl in *.
  - inversion H1; subst; split; constructor.
  - inversion H1 as [|? p' ? ps' Hp1 H1']; subst.
    inversion H2 as [|? ? ? ? Hp2 H2']; subst.
    simpl in Hp1, Hp2.
    destruct (IH ps' H1' H2') as [K1 K2].
    split; constructor; simpl; try assumption; lia.
Qed.

Lemma step_bounded_invariant (n : nat) (T : @transition_t Elt State Store)
    (sys : System Elt State Store) (ev : event Elt) :
  advances n T -> stays_within n T ->
  run_invariant n sys -> bounded_invariant sys ->
  bounded_invariant (step T sys ev).
Proof.
  intros HA HW (Hs & Hp & _) (Hb & Hh).
  destruct ev as [i values|]; simpl.
  - split; simpl; [now apply extend_nth_bounded | assumption].
  - unfold run.
    destruct (sys_failed sys); [split; assumption|].
    destruct (sys_ready sys); [|split; assumption].
    assert (Hil : length (in_lists_of (sys_streams sys) (sys_pointers sys)) = n)
      by (rewrite in_lists_of_length; congruence).
    unfold invoke.
    destruct (T (in_lists_of (sys_streams sys) (sys_pointers sys))
                (sys_state sys) (sys_store sys)) as [store' r] eqn:HTr.
    destruct r as [[[outs state'] ps]|e]; unfold bounded_invariant; simpl.
    + pose proof (HA _ _ _ _ _ _ _ Hil HTr) as H1.
      pose proof (HW _ _ _ _ _ _ _ Hil (in_lists_of_in_range _ _ Hb) HTr) as H2.
      destruct (in_lists_of_new_pointers _ _ _ Hb H1 H2) as [K1 K2].
      split; [assumption|].
      intros inv ps' Hin Hr.
      apply in_app_or in Hin as [Hin|[<-|[]]]; [now apply Hh|].
      simpl in Hr; injection Hr as <-; exact K2.
    + split; [assumption|].
      intros inv ps' Hin Hr.
      apply in_app_or in Hin as [Hin|[<-|[]]]; [now apply Hh|].
      discriminate.
Qed.

Lemma exec_bounded_invariant (n : nat) (T : @transition_t Elt State Store)
    (events : list (event Elt)) :
  advances n T -> stays_within n T ->
  forall sys : System Elt State Store,
    run_invariant n sys -> bounded_invariant sys ->
    run_invariant n (exec T sys events)
    /\ bounded_invariant (exec T sys events).
Proof.
  intros HA HW; induction events as [|ev events IH]; intros sys H1 H2; simpl.
  - split; assumption.
  - apply IH;
      [apply step_run_invariant | apply step_bounded_invariant with (n := n)];
      assumption.
Qed.

Lemma new_system_bounded (n : nat) (state : State) (store : Store) :
  bounded_invariant (new_system (Elt := Elt) n state store).
Proof.
  split; simpl.
  - induction n; simpl; constructor; [split; [lia | apply len_nonneg] | assumption].
  - intros inv ps [].
Qed.

End TransitionsAdvance.

Lemma take_all_within : within_slice take_all.
Proof.
  intros A store store' d H; unfold take_all in H.
  injection H as _ <-; lia.
Qed.

Lemma take_all_merge_within : within_slices take_all_merge.
Proof.
  intros A_list store store' vs H; unfold take_all_merge in H.
  injection H as _ <-.
  induction A_list as [|A A_list IH]; simpl; constructor; [|assumption].
  intros d Hd; injection Hd as <-; lia.
Qed.

(** C4, as the code has it.  In every run of an agent built by [iot] or by
    [iot_merge], each pointer an invocation returns is its starting pointer
    plus a nonnegative displacement, each invocation starts at the pointers
    the previous one returned, and so the pointers returned by successive
    invocations do not decrease.  They stay within the length the stream had
    at invocation time when the callback never reports more elements than
    its slice holds. *)
Theorem pointers_advance :
  forall (Elt State Store : Type)
    (func : list Elt -> Store -> Store * result pyval)
    (mfunc : list (list Elt) -> Store -> Store * result pyval)
    (n : nat) (state : State) (store : Store) (events : list (event Elt)),
    let h1 := sys_history (exec (iot_transition func)
                                (new_system 1 state store) events) in
    let h2 := sys_history (exec (iot_merge_transition mfunc)
                                (new_system n state store) events) in
    (advancing h1 /\ chained h1 /\ non_decreasing h1 /\ offered_to_the_end h1)
    /\ (advancing h2 /\ chained h2 /\ non_decreasing h2
        /\ offered_to_the_end h2)
    /\ (within_slice func -> within_streams h1)
    /\ (within_slices mfunc -> within_streams h2).
Proof.
  intros Elt State Store func mfunc n state store events h1 h2.
  pose proof (exec_run_invariant 1 (iot_transition func) events
                (iot_advances func) _ (new_system_invariant 1 state store))
    as (_ & _ & Htr1 & Ha1 & Ho1).
  pose proof (exec_run_invariant n (iot_merge_transition mfunc) events
                (iot_merge_advances n mfunc) _
                (new_system_invariant n state store))
    as (_ & _ & Htr2 & Ha2 & Ho2).
  pose proof (trace_chained _ _ _ _ Htr1) as Hc1.
  pose proof (trace_chained _ _ _ _ Htr2) as Hc2.
  split; [|split; [|split]].
  - repeat split; try assumption.
    apply chained_non_decreasing; assumption.
  - repeat split; try assumption.
    apply chained_non_decreasing; assumption.
  - intros Hw.
    exact (proj2 (proj2 (exec_bounded_invariant 1 (iot_transition func) events
                           (iot_advances func) (iot_within func Hw) _
                           (new_system_invariant 1 state store)
                           (new_system_bounded 1 state store)))).
  - intros Hw.
    exact (proj2 (proj2 (exec_bounded_invariant n (iot_merge_transition mfunc)
                           events (iot_merge_advances n mfunc)
                           (iot_merge_within n mfunc Hw) _
                           (new_system_invariant n state store)
                           (new_system_bounded n state store)))).
Qed.

(** The theorem at work on callbacks that report their whole slices. *)
Lemma pointers_advance_witness :
  within_slice take_all
  /\ within_slices take_all_merge
  /\ within_streams
       (sys_history (exec (iot_transition take_all) (new_system 1 tt tt)
                          [Extend 0 [1; 2]; Run; Extend 1 [3]; Run;
                           Extend 0 [4]; Run]))
  /\ within_streams
       (sys_history (exec (iot_merge_transition take_all_merge)
                          (new_system 2 tt tt)
                          [Extend 0 [1; 2]; Run; Extend 1 [3]; Run;
                           Extend 0 [4]; Run])).
Proof.
  pose proof (pointers_advance Z unit unit take_all take_all_merge 2 tt tt
                [Extend 0 [1; 2]; Run; Extend 1 [3]; Run; Extend 0 [4]; Run])
    as (_ & _ & H1 & H2).
  split; [exact take_all_within | split; [exact take_all_merge_within |]].
  split; [exact (H1 take_all_within) | exact (H2 take_all_merge_within)].
Defined.

(** C4, as the specification words it, fails in its second half: after the
    stream is extended with the single element 7, the callback that reports
    one element more than its slice holds makes the invocation return the
    pointer 2, beyond the stream length 1. *)
Lemma pointer_exceeds_stream_length :
  let h := sys_history (exec (iot_transition overshoot) (new_system 1 tt tt)
                             [Extend 0 [7]; Run]) in
  iot_transition overshoot [mkInList [7] 0 (len [7])] tt tt
  = (tt, Ok ([], tt, [2]))
  /\ ~ (2 <= len [7])
  /\ map (fun inv => map il_list (inv_in_lists inv)) h = [[[7]]]
  /\ map returned_pointers h = [Some [2]]
  /\ ~ within_streams h.
Proof.
  cbv zeta; split; [reflexivity | split; [vm_compute; intros H; now apply H |]].
  split; [reflexivity | split; [reflexivity |]].
  intros H.
  specialize (H (mkInvocation [mkInList [7] 0 1] (Ok ([], tt, [2]))) [2]
                (or_introl eq_refl) eq_refl).
  inversion H as [|? ? ? ? Hle _]; subst.
  vm_compute in Hle; apply Hle; reflexivity.
Qed.

(** ** The slices an [iot] agent consumes *)

Lemma firstn_plus {A : Type} (a k : nat) (l : list A) :
  firstn (a + k) l = firstn a l ++ firstn k (skipn a l).
Proof.
  revert l; induction a as [|a IH]; intros [|x l]; simpl;
    try reflexivity.
  - now rewrite firstn_nil.
  - now rewrite IH.
Qed.

Lemma py_slice_to_in_range {A : Type} (l : list A) (b : Z) :
  0 <= b <= len l -> py_slice_to l b = firstn (Z.to_nat b) l.
Proof.
  intros Hb; unfold py_slice_to.
  rewrite py_slice_in_range by lia.
  now rewrite Z.sub_0_r.
Qed.

Lemma py_slice_to_split {A : Type} (l : list A) (a b : Z) :
  0 <= a <= b -> b <= len l ->
  py_slice_to l b = py_slice_to l a ++ py_slice l a b.
Proof.
  intros Ha Hb.
  rewrite !py_slice_to_in_range, py_slice_in_range by lia.
  replace (Z.to_nat b) with (Z.to_nat a + Z.to_nat (b - a))%nat by lia.
  apply firstn_plus.
Qed.

Lemma py_slice_to_app {A : Type} (l l' : list A) (b : Z) :
  0 <= b <= len l -> py_slice_to (l ++ l') b = py_slice_to l b.
Proof.
  intros Hb.
  pose proof (len_nonneg l').
  rewrite !py_slice_to_in_range by (rewrite ?len_app; lia).
  rewrite firstn_app.
  replace (Z.to_nat b - length l)%nat with 0%nat by (unfold len in *; lia).
  apply app_nil_r.
Qed.

Lemma py_slice_to_from {A : Type} (l : list A) (p : Z) :
  0 <= p <= len l -> l = py_slice_to l p ++ py_slice_from l p.
Proof.
  intros Hp.
  rewrite py_slice_to_in_range, py_slice_from_in_range by assumption.
  symmetry; apply firstn_skipn.
Qed.

Lemma extend_nth_nil {Elt : Type} (i : nat) (values : list Elt) :
  extend_nth i values [] = [].
Proof. destruct i; reflexivity. Qed.

Lemma new_system_cover {Elt State Store : Type} (state : State)
    (store : Store) :
  cover_invariant (new_system (Elt := Elt) 1 state store).
Proof.
  exists [], 0; repeat split; try reflexivity; unfold len; simpl; lia.
Qed.

Lemma step_cover_invariant {Elt State Store : Type}
    (func : list Elt -> Store -> Store * result pyval)
    (sys : System Elt State Store) (ev : event Elt) :
  within_slice func -> cover_invariant sys ->
  cover_invariant (step (iot_transition func) sys ev).
Proof.
  intros Hw (s & p & Hs & Hp & Hb & Hc).
  assert (Hsame : forall sys' : System Elt State Store,
             sys_streams sys' = sys_streams sys ->
             sys_pointers sys' = sys_pointers sys ->
             concat (map consumed_slice (sys_history sys'))
             = concat (map consumed_slice (sys_history sys)) ->
             cover_invariant sys').
  { intros sys' E1 E2 E3; exists s, p.
    rewrite E1, E2, E3; repeat split; (lia || assumption). }
  destruct ev as [i values|]; simpl.
  - destruct i as [|i].
    + exists (s ++ values), p; unfold stream_extend; simpl; rewrite Hs.
      repeat split; try lia; try assumption.
      * rewrite len_app; pose proof (len_nonneg values); lia.
      * rewrite Hc; symmetry; apply py_slice_to_app; assumption.
    + apply Hsame; try reflexivity.
      unfold stream_extend; simpl; rewrite Hs; simpl.
      now rewrite extend_nth_nil.
  - unfold run.
    destruct (sys_failed sys); [apply Hsame; reflexivity|].
    destruct (sys_ready sys); [|apply Hsame; reflexivity].
    unfold invoke; rewrite Hs, Hp; simpl in_lists_of.
    destruct (iot_transition func [mkInList s p (len s)] (sys_state sys)
                (sys_store sys)) as [store' r] eqn:HT.
    assert (Hraise : forall e, r = Raise e ->
              cover_invariant
                {| sys_streams := [s];
                   sys_store := store';
                   sys_pointers := [p];
                   sys_state := sys_state sys;
                   sys_failed := Some e;
                   sys_ready := false;
                   sys_history := sys_history sys
                                  ++ [mkInvocation [mkInList s p (len s)] r] |}).
    { intros e ->; apply Hsame; simpl; try congruence.
      rewrite map_app, concat_app; simpl.
      unfold consumed_slice; simpl; now rewrite !app_nil_r. }
    unfold iot_transition in HT.
    destruct (func (in_list_slice (mkInList s p (len s))) (sys_store sys))
      as [store1 rv] eqn:Hf.
    destruct rv as [[d| |l|]|e];
      try (injection HT as <- <-; now apply Hraise).
    destruct (Z.geb_spec d 0) as [Hd|Hd];
      [|injection HT as <- <-; now apply Hraise].
    injection HT as <- <-.
    pose proof (Hw _ _ _ _ Hf) as Hle.
    rewrite in_list_slice_offered, len_py_slice_from in Hle by assumption.
    exists s, (d + p); simpl; repeat split; try lia.
    rewrite map_app, concat_app, Hc; simpl.
    unfold consumed_slice; simpl; rewrite app_nil_r.
    symmetry; apply py_slice_to_split; lia.
Qed.

Lemma exec_cover_invariant {Elt State Store : Type}
    (func : list Elt -> Store -> Store * result pyval)
    (events : list (event Elt)) :
  within_slice func ->
  forall sys : System Elt State Store,
    cover_invariant sys ->
    cover_invariant (exec (iot_transition func) sys events).
Proof.
  intros Hw; induction events as [|ev events IH]; intros sys H; simpl.
  - assumption.
  - apply IH, step_cover_invariant; assumption.
Qed.

(** C6, as the code has it.  In every run of an agent built by [iot],
    each invocation's slice begins at the pointer the previous invocation
    returned, and every returned pointer is at or after the starting one,
    so the consumed regions are contiguous and do not overlap.  When the
    callback never reports more elements than its slice holds, the
    consumed slices, concatenated in order, are exactly the stream up to
    the current pointer: the history is covered once, but for the unread
    suffix from the pointer on. *)
Theorem consumed_slices_cover :
  forall (Elt State Store : Type)
    (func : list Elt -> Store -> Store * result pyval)
    (state : State) (store : Store) (events : list (event Elt)),
    let sys := exec (iot_transition func) (new_system 1 state store) events in
    chained (sys_history sys)
    /\ advancing (sys_history sys)
    /\ (within_slice func ->
        exists p,
          sys_pointers sys = [p]
          /\ 0 <= p <= len (in_stream sys)
          /\ concat (map consumed_slice (sys_history sys))
             = py_slice_to (in_stream sys) p
          /\ in_stream sys
             = concat (map consumed_slice (sys_history sys))
               ++ py_slice_from (in_stream sys) p).
Proof.
  intros Elt State Store func state store events sys.
  pose proof (exec_run_invariant 1 (iot_transition func) events
                (iot_advances func) _ (new_system_invariant 1 state store))
    as (_ & _ & Htr & Ha & _).
  split; [exact (trace_chained _ _ _ _ Htr) | split; [exact Ha |]].
  intros Hw.
  destruct (exec_cover_invariant func events Hw _
              (new_system_cover state store)) as (s & p & Hs & Hp & Hb & Hc).
  fold sys in Hs, Hp, Hc.
  exists p; unfold in_stream; rewrite Hs; simpl.
  repeat split; try assumption; try lia.
  rewrite Hc; apply py_slice_to_from; assumption.
Qed.

(** The theorem at work on the callback that reports its whole slice. *)
Lemma consumed_slices_cover_witness :
  within_slice take_all
  /\ exists p,
       sys_pointers (exec (iot_transition take_all) (new_system 1 tt tt)
                          [Extend 0 [1]; Run; Extend 0 [2; 3]; Run]) = [p]
       /\ concat (map consumed_slice
                      (sys_history
                         (exec (iot_transition take_all) (new_system 1 tt tt)
                               [Extend 0 [1]; Run; Extend 0 [2; 3]; Run])))
          = py_slice_to [1; 2; 3] p.
Proof.
  split; [exact take_all_within|].
  destruct (proj2 (proj2 (consumed_slices_cover Z unit unit take_all tt tt
                            [Extend 0 [1]; Run; Extend 0 [2; 3]; Run]))
                  take_all_within) as (p & Hp & _ & Hc & _).
  exists p; split; [exact Hp | exact Hc].
Defined.

(** C6, as the specification words it, fails.  The stream receives 1, the
    agent runs, the stream receives 2 and 3, the agent runs again; the
    callback reports one element more than its slice holds.  The first
    invocation consumes [[1]] and returns the pointer 2, so the second is
    offered [[3]] only: the element 2 is never offered, and the consumed
    slices [[1]] and [[3]] do not make up the history [[1; 2; 3]] less a
    suffix. *)
Lemma overshoot_skips_an_element :
  let sys := exec (iot_transition overshoot) (new_system 1 tt tt)
                  [Extend 0 [1]; Run; Extend 0 [2; 3]; Run] in
  in_stream sys = [1; 2; 3]
  /\ map (fun inv => map in_list_slice (inv_in_lists inv)) (sys_history sys)
     = [[[1]]; [[3]]]
  /\ map returned_pointers (sys_history sys) = [Some [2]; Some [4]]
  /\ map consumed_slice (sys_history sys) = [[1]; [3]]
  /\ ~ (exists unread,
          in_stream sys
          = concat (map consumed_slice (sys_history sys)) ++ unread).
Proof.
  cbv zeta; repeat split; try reflexivity.
  intros [unread H]; vm_compute in H; discriminate.
Qed.

(** ** Clock drift from NTP servers *)

Section DriftFacts.
Import Timing.
Context {server float World : Type}.
Variables (fzero ftwo : float) (is_true : float -> bool).
Variables (fadd fdiv : float -> float -> float) (of_int : Z -> float).
Variable flt : float -> float -> bool.
Variable request : server -> M World float.
Variable log_warning : server -> World -> World.

Local Abbreviation drift :=
  (clock_drift_from_ntp_server request log_warning).
Local Abbreviation first :=
  (clock_drift_from_first_ntp_server fzero is_true request log_warning).
Local Abbreviation average :=
  (clock_drift_from_average_of_ntp_servers fadd fdiv of_int request
     log_warning).
Local Abbreviation median :=
  (clock_drift_from_median_of_ntp_servers fzero ftwo fadd fdiv flt request
     log_warning).

(** The helper for one server never raises. *)
Lemma drift_absorbs (ntp_server : server) (w : World) :
  exists w' o,
    drift ntp_server w = (w', Ok o)
    /\ (forall e w1, request ntp_server w = (w1, Raise e) ->
        o = None /\ w' = log_warning ntp_server w1)
    /\ (forall offset w1, request ntp_server w = (w1, Ok offset) ->
        o = Some offset /\ w' = w1).
Proof.
  unfold clock_drift_from_ntp_server.
  destruct (request ntp_server w) as [w1 [offset|e]].
  - exists w1, (Some offset).
    split; [reflexivity | split]; intros ? ? E; [discriminate|].
    injection E as -> ->; split; reflexivity.
  - exists (log_warning ntp_server w1), None.
    split; [reflexivity | split]; intros ? ? E; [|discriminate].
    injection E as -> ->; split; reflexivity.
Qed.

(** Asking every server in turn never raises. *)
Lemma for_each_drift_ok (servers : list server) (w : World) :
  exists w' os,
    for_each drift servers w = (w', Ok os) /\ length os = length servers.
Proof.
  revert w; induction servers as [|s servers IH]; intros w; simpl.
  - exists w, []; split; reflexivity.
  - unfold bind.
    destruct (drift_absorbs s w) as (w1 & o & -> & _).
    destruct (IH w1) as (w2 & os & -> & Hl).
    exists w2, (o :: os); split; [reflexivity | simpl; now rewrite Hl].
Qed.

Lemma for_each_drift_cons (s : server) (servers : list server)
    (w w2 : World) (os : list (option float)) :
  for_each drift (s :: servers) w = (w2, Ok os) ->
  exists w1 o os',
    drift s w = (w1, Ok o)
    /\ for_each drift servers w1 = (w2, Ok os')
    /\ os = o :: os'.
Proof.
  simpl; unfold bind.
  destruct (drift_absorbs s w) as (w1 & o & Hd & _).
  destruct (for_each_drift_ok servers w1) as (w2' & os' & Hf & _).
  rewrite Hd, Hf; unfold ret; intros H; injection H as <- <-.
  exists w1, o, os'; split; [reflexivity | split; [assumption | reflexivity]].
Qed.

(** A server whose answer does not count as true is passed over. *)
Lemma first_skips (s : server) (rest : list server) (w w1 : World)
    (o : option float) :
  drift s w = (w1, Ok o) -> truthy is_true o = false ->
  first (s :: rest) w = first rest w1.
Proof.
  intros Hd Ht; simpl; unfold bind; rewrite Hd.
  destruct o as [d|]; simpl in Ht; [now rewrite Ht | reflexivity].
Qed.

(** A server whose answer counts as true ends the search. *)
Lemma first_takes (s : server) (rest : list server) (w w1 : World)
    (d : float) :
  drift s w = (w1, Ok (Some d)) -> is_true d = true ->
  first (s :: rest) w = (w1, Ok d).
Proof.
  intros Hd Ht; simpl; unfold bind; rewrite Hd, Ht; reflexivity.
Qed.

Lemma first_after_skipped (pre rest : list server) (w w1 : World)
    (os : list (option float)) :
  for_each drift pre w = (w1, Ok os) ->
  Forall (fun o => truthy is_true o = false) os ->
  first (pre ++ rest) w = first rest w1.
Proof.
  revert w os; induction pre as [|s pre IH]; intros w os Hf Hall.
  - simpl in Hf; unfold ret in Hf; injection Hf as <- _; reflexivity.
  - destruct (for_each_drift_cons _ _ _ _ _ Hf) as (w0 & o & os' & Hd & Hf' & ->).
    inversion Hall; subst.
    rewrite <- app_comm_cons, (first_skips _ _ _ _ _ Hd) by assumption.
    now apply IH with (os := os').
Qed.

Lemma first_total (servers : list server) (w : World) :
  exists w' d, first servers w = (w', Ok d).
Proof.
  revert w; induction servers as [|s servers IH]; intros w.
  - exists w, fzero; reflexivity.
  - destruct (drift_absorbs s w) as (w1 & o & Hd & _).
    destruct (truthy is_true o) eqn:Ht.
    + destruct o as [d|]; [|discriminate].
      exists w1, d; now apply first_takes.
    + rewrite (first_skips _ _ _ _ _ Hd Ht); apply IH.
Qed.

End DriftFacts.

(** C7.  [clock_drift_from_first_ntp_server] never raises: the helper for
    one server turns a failed request into [None] (after logging it), a
    server that yields [None] is passed over and the rest of the list is
    tried from the world that request left, and when no server of the list
    yields a drift that counts as true the result is [0.0]. *)
Theorem first_never_raises :
  forall (server float World : Type) (fzero : float)
    (is_true : float -> bool)
    (request : server -> Timing.M World float)
    (log_warning : server -> World -> World)
    (servers : list server) (w : World),
    let drift := Timing.clock_drift_from_ntp_server request log_warning in
    let first := Timing.clock_drift_from_first_ntp_server
                   fzero is_true request log_warning in
    (forall s w0, exists w1 o,
        drift s w0 = (w1, Ok o)
        /\ (forall e w', request s w0 = (w', Raise e) ->
            o = None /\ w1 = log_warning s w'))
    /\ (exists w' d, first servers w = (w', Ok d))
    /\ (forall s rest w0 w1,
        drift s w0 = (w1, Ok None) -> first (s :: rest) w0 = first rest w1)
    /\ (forall w1 os,
        Timing.for_each drift servers w = (w1, Ok os) ->
        Forall (fun o => Timing.truthy is_true o = false) os ->
        first servers w = (w1, Ok fzero)).
Proof.
  intros server float World fzero is_true request log_warning servers w
         drift first.
  split; [|split; [|split]].
  - intros s w0.
    destruct (drift_absorbs request log_warning s w0) as (w1 & o & H1 & H2 & _).
    exists w1, o; split; assumption.
  - apply first_total.
  - intros s rest w0 w1 H.
    now apply (first_skips fzero is_true request log_warning s rest w0 w1 None).
  - intros w1 os Hf Hall.
    pose proof (first_after_skipped fzero is_true request log_warning
                  servers [] w w1 os Hf Hall) as H.
    rewrite app_nil_r in H; exact H.
Qed.

(** The theorem at work: servers 0 and 2 fail and server 1 reports a zero
    drift, so the result is the sentinel. *)
Lemma first_never_raises_witness :
  Timing.for_each
    (Timing.clock_drift_from_ntp_server Timing.scripted_request
       Timing.scripted_warning) [0; 1; 2]%nat []
  = ([Timing.Asked 0; Timing.Warned 0; Timing.Asked 1; Timing.Asked 2;
      Timing.Warned 2],
     Ok [None; Some (0 # 1)%Q; None])
  /\ Forall (fun o => Timing.truthy Timing.q_is_true o = false)
            [None; Some (0 # 1)%Q; None]
  /\ Timing.q_first [0; 1; 2]%nat []
     = ([Timing.Asked 0; Timing.Warned 0; Timing.Asked 1; Timing.Asked 2;
         Timing.Warned 2],
        Ok (0 # 1)%Q).
Proof.
  assert (Hall : Forall (fun o => Timing.truthy Timing.q_is_true o = false)
                        [None; Some (0 # 1)%Q; None])
    by (repeat constructor).
  split; [reflexivity | split; [exact Hall |]].
  exact (proj2 (proj2 (proj2
           (first_never_raises nat Q (list Timing.entry) (0 # 1)%Q
              Timing.q_is_true Timing.scripted_request Timing.scripted_warning
              [0; 1; 2]%nat [])))
         _ _ eq_refl Hall).
Defined.

(** C9.  A server whose drift is exactly zero -- a drift that does not
    count as true -- is treated like a server that failed: it is passed
    over and the next server is asked.  So the result is the first drift
    in list order that is neither [None] nor zero, the servers after it are
    not asked, and the result is [0.0] when every server fails or reports
    zero. *)
Theorem first_skips_zero_drift :
  forall (server float World : Type) (fzero : float)
    (is_true : float -> bool)
    (request : server -> Timing.M World float)
    (log_warning : server -> World -> World)
    (pre post : list server) (s : server) (w w1 w2 : World)
    (os : list (option float)) (d : float),
    let drift := Timing.clock_drift_from_ntp_server request log_warning in
    let first := Timing.clock_drift_from_first_ntp_server
                   fzero is_true request log_warning in
    Timing.for_each drift pre w = (w1, Ok os) ->
    Forall (fun o => o = None \/ exists z, o = Some z /\ is_true z = false)
           os ->
    drift s w1 = (w2, Ok (Some d)) ->
    is_true d = true ->
    first (pre ++ s :: post) w = (w2, Ok d)
    /\ (forall s' rest w0 w3 z,
        drift s' w0 = (w3, Ok (Some z)) -> is_true z = false ->
        first (s' :: rest) w0 = first rest w3)
    /\ (forall s' rest w0 w3,
        drift s' w0 = (w3, Ok None) ->
        first (s' :: rest) w0 = first rest w3)
    /\ first pre w = (w1, Ok fzero).
Proof.
  intros server float World fzero is_true request log_warning pre post s
         w w1 w2 os d drift first Hf Hall Hd Ht.
  assert (Hall' : Forall (fun o => Timing.truthy is_true o = false) os).
  { eapply Forall_impl; [|exact Hall].
    intros o [->|(z & -> & Hz)]; [reflexivity | exact Hz]. }
  split; [|split; [|split]].
  - unfold first.
    rewrite (first_after_skipped fzero is_true request log_warning
               pre (s :: post) w w1 os Hf Hall').
    now apply first_takes.
  - intros s' rest w0 w3 z H Hz.
    now apply (first_skips fzero is_true request log_warning
                 s' rest w0 w3 (Some z)).
  - intros s' rest w0 w3 H.
    now apply (first_skips fzero is_true request log_warning
                 s' rest w0 w3 None).
  - pose proof (first_after_skipped fzero is_true request log_warning
                  pre [] w w1 os Hf Hall') as H.
    rewrite app_nil_r in H; exact H.
Qed.

(** The theorem at work: servers 0 and 2 fail, servers 1 and 5 report a
    zero drift, server 3 reports -2/4, and server 4 is not asked. *)
Lemma first_skips_zero_drift_witness :
  Timing.for_each
    (Timing.clock_drift_from_ntp_server Timing.scripted_request
       Timing.scripted_warning) [0; 1; 2; 5]%nat []
  = ([Timing.Asked 0; Timing.Warned 0; Timing.Asked 1; Timing.Asked 2;
      Timing.Warned 2; Timing.Asked 5],
     Ok [None; Some (0 # 1)%Q; None; Some (0 # 4)%Q])
  /\ Timing.q_is_true (-2 # 4)%Q = true
  /\ Timing.q_first [0; 1; 2; 5; 3; 4]%nat []
     = ([Timing.Asked 0; Timing.Warned 0; Timing.Asked 1; Timing.Asked 2;
         Timing.Warned 2; Timing.Asked 5; Timing.Asked 3],
        Ok (-2 # 4)%Q).
Proof.
  split; [reflexivity | split; [reflexivity |]].
  refine (proj1 (first_skips_zero_drift nat Q (list Timing.entry) (0 # 1)%Q
            Timing.q_is_true Timing.scripted_request Timing.scripted_warning
            [0; 1; 2; 5]%nat [4]%nat 3%nat [] _ _ _ (-2 # 4)%Q
            eq_refl _ eq_refl eq_refl)).
  apply Forall_cons; [left; reflexivity |].
  apply Forall_cons; [right; eexists; split; reflexivity |].
  apply Forall_cons; [left; reflexivity |].
  apply Forall_cons; [right; eexists; split; reflexivity |].
  apply Forall_nil.
Defined.

(** *** Sorting, indexing, and the average and the median *)

Section SortedFacts.
Import Timing.
Context {float : Type}.
Variable flt : float -> float -> bool.

(** [not_after a b]: [b] is not less than [a]. *)
Local Abbreviation not_after := (fun a b : float => flt b a = false).

Lemma insert_sorted_perm (x : float) (l : list float) :
  Permutation (insert_sorted flt x l) (x :: l).
Proof.
  induction l as [|y l IH]; simpl; [reflexivity|].
  destruct (flt x y); [reflexivity|].
  rewrite IH; apply perm_swap.
Qed.

Lemma fold_insert_perm (l acc : list float) :
  Permutation (fold_left (fun acc x => insert_sorted flt x acc) l acc)
              (acc ++ l).
Proof.
  revert acc; induction l as [|x l IH]; intros acc; simpl.
  - now rewrite app_nil_r.
  - rewrite IH, insert_sorted_perm; simpl.
    apply Permutation_middle.
Qed.

Lemma sorted_perm (l : list float) : Permutation (sorted flt l) l.
Proof. unfold sorted; apply (fold_insert_perm l []). Qed.

Lemma len_sorted (l : list float) : len (sorted flt l) = len l.
Proof. unfold len; now rewrite (Permutation_length (sorted_perm l)). Qed.

Lemma insert_sorted_Sorted (x : float) (l : list float) :
  (forall a b, flt a b = true -> flt b a = false) ->
  Sorted not_after l -> Sorted not_after (insert_sorted flt x l).
Proof.
  intros Hasym; induction l as [|y l IH]; intros Hs; simpl.
  - repeat constructor.
  - destruct (flt x y) eqn:Hxy.
    + constructor; [assumption | constructor; now apply Hasym].
    + apply Sorted_inv in Hs as [Hs Hhd].
      constructor; [now apply IH|].
      destruct l as [|z l]; simpl.
      * constructor; assumption.
      * destruct (flt x z); constructor; [assumption|].
        now inversion Hhd.
Qed.

Lemma sorted_Sorted (l : list float) :
  (forall a b, flt a b = true -> flt b a = false) ->
  Sorted not_after (sorted flt l).
Proof.
  intros Hasym; unfold sorted.
  assert (H : Sorted not_after (@nil float)) by constructor.
  revert H; generalize (@nil float).
  induction l as [|x l IH]; intros acc Hacc; simpl; [assumption|].
  apply IH, insert_sorted_Sorted; assumption.
Qed.

End SortedFacts.

Lemma py_getitem_in_range {W A : Type} (l : list A) (i : Z) (w : W) :
  0 <= i < len l ->
  exists a, nth_error l (Z.to_nat i) = Some a
            /\ Timing.py_getitem l i w = (w, Ok a).
Proof.
  intros Hi; unfold Timing.py_getitem.
  destruct (Z.ltb_spec i 0); [lia|].
  destruct (Z.leb_spec 0 i); [|lia].
  destruct (Z.ltb_spec i (len l)); [|lia]; simpl.
  destruct (nth_error l (Z.to_nat i)) as [a|] eqn:E.
  - exists a; split; reflexivity.
  - apply nth_error_None in E; unfold len in *; lia.
Qed.

Lemma not_None_all_None {A : Type} (os : list (option A)) :
  Forall (fun o => o = None) os -> Timing.not_None os = [].
Proof. induction 1 as [|o os -> _ IH]; simpl; [reflexivity | assumption]. Qed.

Lemma all_None_not_truthy {A : Type} (is_true : A -> bool)
    (os : list (option A)) :
  Forall (fun o => o = None) os ->
  Forall (fun o => Timing.truthy is_true o = false) os.
Proof. apply Forall_impl; intros o ->; reflexivity. Qed.

Lemma q_lt_asym (a b : Q) :
  Timing.q_lt a b = true -> Timing.q_lt b a = false.
Proof.
  unfold Timing.q_lt; intros H.
  apply negb_true_iff in H.
  apply negb_false_iff, Qle_bool_iff, Qlt_le_weak, Qnot_le_lt.
  intros Hle; apply Qle_bool_iff in Hle; congruence.
Qed.

(** C10.  When every server of the list fails to respond, the average and
    the median functions return [None], while the first-responding
    function returns [0.0].  When at least one server responds, the average
    function returns the sum of the drifts that are not [None] divided by
    their number, and the median function sorts those drifts and returns
    the middle one when their number is odd and the mean of the two middle
    ones when it is even. *)
Theorem average_and_median :
  forall (server float World : Type) (fzero ftwo : float)
    (is_true : float -> bool) (fadd fdiv : float -> float -> float)
    (of_int : Z -> float) (flt : float -> float -> bool)
    (request : server -> Timing.M World float)
    (log_warning : server -> World -> World)
    (servers : list server) (w w1 : World) (os : list (option float)),
    let drift := Timing.clock_drift_from_ntp_server request log_warning in
    let first := Timing.clock_drift_from_first_ntp_server
                   fzero is_true request log_warning in
    let average := Timing.clock_drift_from_average_of_ntp_servers
                     fadd fdiv of_int request log_warning in
    let median := Timing.clock_drift_from_median_of_ntp_servers
                    fzero ftwo fadd fdiv flt request log_warning in
    Timing.for_each drift servers w = (w1, Ok os) ->
    let ds := Timing.not_None os in
    let n := len ds in
    let s := Timing.sorted flt ds in
    (Forall (fun o => o = None) os ->
     average servers w = (w1, Ok None)
     /\ median servers w = (w1, Ok None)
     /\ first servers w = (w1, Ok fzero))
    /\ (ds <> [] ->
        average servers w
        = (w1, Ok (Some (fdiv (Timing.py_sum fadd of_int ds) (of_int n))))
        /\ Permutation s ds
        /\ ((forall a b, flt a b = true -> flt b a = false) ->
            Sorted (fun a b => flt b a = false) s)
        /\ exists m,
             median servers w = (w1, Ok (Some m))
             /\ (n mod 2 = 1 -> nth_error s (Z.to_nat (n / 2)) = Some m)
             /\ (n mod 2 = 0 ->
                 exists a b,
                   nth_error s (Z.to_nat (n / 2 - 1)) = Some a
                   /\ nth_error s (Z.to_nat (n / 2)) = Some b
                   /\ m = fdiv (fadd a b) ftwo)).
Proof.
  intros server float World fzero ftwo is_true fadd fdiv of_int flt request
         log_warning servers w w1 os drift first average median Hf ds n s.
  assert (Eds : Timing.not_None os = ds) by reflexivity.
  assert (En : len ds = n) by reflexivity.
  assert (Es : Timing.sorted flt ds = s) by reflexivity.
  assert (Hperm : Permutation s ds) by apply sorted_perm.
  assert (Hsorted : (forall a b, flt a b = true -> flt b a = false) ->
                    Sorted (fun a b => flt b a = false) s)
    by apply sorted_Sorted.
  assert (Hlen : len s = n) by apply len_sorted.
  clearbody ds n s.
  unfold average, median, Timing.clock_drift_from_average_of_ntp_servers,
    Timing.clock_drift_from_median_of_ntp_servers, Timing.bind.
  fold drift; rewrite Hf, Eds.
  split.
  - intros Hall.
    rewrite (not_None_all_None os Hall) in Eds; subst ds.
    split; [reflexivity | split; [reflexivity |]].
    pose proof (first_after_skipped fzero is_true request log_warning
                  servers [] w w1 os Hf (all_None_not_truthy is_true os Hall))
      as H.
    rewrite app_nil_r in H; exact H.
  - intros Hne.
    destruct ds as [|d0 ds']; [contradiction|].
    rewrite Es, En, Hlen.
    split; [reflexivity | split; [assumption | split; [assumption |]]].
    assert (Hn : 1 <= n) by (rewrite <- En; unfold len; simpl; lia).
    pose proof (Z.div_mod n 2 ltac:(lia)) as Hdm.
    pose proof (Z.mod_pos_bound n 2 ltac:(lia)) as Hmod.
    destruct (Z.eqb_spec n 0) as [H0|_]; [lia|].
    destruct (Z.eqb_spec n 1) as [H1|H1].
    + destruct (py_getitem_in_range s 0 w1 ltac:(lia)) as (a & Ha & Hg).
      rewrite Hg; exists a; split; [reflexivity | split].
      * intros _; rewrite H1; exact Ha.
      * rewrite H1; intros H; discriminate H.
    + destruct (Z.eqb_spec (n mod 2) 0) as [He|Ho]; simpl.
      * destruct (py_getitem_in_range s (n / 2 - 1) w1 ltac:(lia))
          as (a & Ha & Hga).
        destruct (py_getitem_in_range s (n / 2) w1 ltac:(lia))
          as (b & Hb & Hgb).
        rewrite Hga, Hgb; exists (fdiv (fadd a b) ftwo).
        split; [reflexivity | split; [lia|]].
        intros _; exists a, b; repeat split; assumption.
      * destruct (py_getitem_in_range s (n / 2) w1 ltac:(lia))
          as (a & Ha & Hg).
        rewrite Hg; exists a.
        split; [reflexivity | split; [intros _; exact Ha | lia]].
Qed.

(** The theorem at work: servers 0 and 2 fail, and servers 1, 5, 3 and 4
    report 0, 0, -2/4 and -1/4; the average is -3/16 and the median is the
    mean -1/8 of the two middle drifts -1/4 and 0. *)
Lemma average_and_median_witness :
  Timing.for_each
    (Timing.clock_drift_from_ntp_server Timing.scripted_request
       Timing.scripted_warning) [0; 1; 2; 5; 3; 4]%nat []
  = ([Timing.Asked 0; Timing.Warned 0; Timing.Asked 1; Timing.Asked 2;
      Timing.Warned 2; Timing.Asked 5; Timing.Asked 3; Timing.Asked 4],
     Ok [None; Some (0 # 1)%Q; None; Some (0 # 4)%Q; Some (-2 # 4)%Q;
         Some (-1 # 4)%Q])
  /\ (forall a b, Timing.q_lt a b = true -> Timing.q_lt b a = false)
  /\ Timing.q_average [0; 1; 2; 5; 3; 4]%nat []
     = ([Timing.Asked 0; Timing.Warned 0; Timing.Asked 1; Timing.Asked 2;
         Timing.Warned 2; Timing.Asked 5; Timing.Asked 3; Timing.Asked 4],
        Ok (Some (-3 # 16)%Q))
  /\ Sorted (fun a b => Timing.q_lt b a = false)
            [(-2 # 4)%Q; (-1 # 4)%Q; (0 # 1)%Q; (0 # 4)%Q]
  /\ exists m,
       Timing.q_median [0; 1; 2; 5; 3; 4]%nat []
       = ([Timing.Asked 0; Timing.Warned 0; Timing.Asked 1; Timing.Asked 2;
           Timing.Warned 2; Timing.Asked 5; Timing.Asked 3; Timing.Asked 4],
          Ok (Some m))
       /\ m = Timing.q_div (Timing.q_add (-1 # 4)%Q (0 # 1)%Q) (2 # 1)%Q.
Proof.
  pose proof (average_and_median nat Q (list Timing.entry) (0 # 1)%Q (2 # 1)%Q
                Timing.q_is_true Timing.q_add Timing.q_div inject_Z
                Timing.q_lt Timing.scripted_request Timing.scripted_warning
                [0; 1; 2; 5; 3; 4]%nat [] _ _ eq_refl) as H.
  cbv zeta in H; destruct H as [_ H].
  destruct (H ltac:(discriminate)) as (Ha & _ & Hs & m & Hm & _ & He).
  destruct (He eq_refl) as (a & b & Ea & Eb & Em).
  injection Ea as <-; injection Eb as <-.
  split; [reflexivity | split; [exact q_lt_asym | split; [exact Ha |]]].
  split; [exact (Hs q_lt_asym) | exists m; split; [exact Hm | exact Em]].
Defined.

(** * Further properties *)

(** ** [test_iot]: two agents on one stream *)

Lemma py_slice_to_all {A : Type} (l : list A) : py_slice_to l (len l) = l.
Proof.
  rewrite py_slice_to_in_range by (pose proof (len_nonneg l); lia).
  apply firstn_all2; unfold len; lia.
Qed.

(** What one invocation does when the callback reports its whole slice. *)
Lemma invoke_whole_slice {Elt State Store : Type}
    (func : list Elt -> Store -> Store * result pyval)
    (sys : System Elt State Store) (x : list Elt) (p : Z) (store' : Store) :
  sys_streams sys = [x] -> sys_pointers sys = [p] -> 0 <= p <= len x ->
  func (py_slice_from x p) (sys_store sys)
  = (store', Ok (PyInt (len (py_slice_from x p)))) ->
  invoke (iot_transition func) sys
  = {| sys_streams := [x];
       sys_store := store';
       sys_pointers := [len x];
       sys_state := sys_state sys;
       sys_failed := None;
       sys_ready := false;
       sys_history :=
         sys_history sys
         ++ [mkInvocation [mkInList x p (len x)]
               (Ok ([], sys_state sys, [len x]))] |}.
Proof.
  intros Hs Hp Hb Hf.
  unfold invoke; rewrite Hs, Hp; simpl in_lists_of.
  unfold iot_transition; rewrite in_list_slice_offered, Hf.
  rewrite len_py_slice_from by assumption; simpl il_start.
  destruct (Z.geb_spec (len x - p) 0); [|lia].
  replace (len x - p + p) with (len x) by lia.
  reflexivity.
Qed.

Lemma map_slices {A B : Type} (h : A -> B) (x : list A) (p : Z) :
  0 <= p <= len x ->
  map h (py_slice_to x p) ++ map h (py_slice_from x p)
  = map h (py_slice_to x (len x)).
Proof.
  intros Hp.
  rewrite <- map_app, <- py_slice_to_from by assumption.
  now rewrite py_slice_to_all.
Qed.

Lemma step_test_iot_invariant (sf sg : System Z unit (list Z * list Z))
    (ev : event Z) :
  test_iot_invariant sf sg ->
  test_iot_invariant (step (iot_transition TestIot.f) sf ev)
                     (step (iot_transition TestIot.g) sg ev).
Proof.
  intros (x & p & Hsf & Hsg & Hpf & Hpg & Hb & Hff & Hfg & Hr & Hq & Hyz & Huv).
  destruct ev as [i values|]; simpl.
  - destruct i as [|i].
    + exists (x ++ values), p; unfold stream_extend; simpl.
      rewrite Hsf, Hsg; simpl.
      rewrite !py_slice_to_app by assumption.
      rewrite len_app; pose proof (len_nonneg values).
      repeat split; try assumption; try lia; try (now left).
    + exists x, p; unfold stream_extend; simpl.
      rewrite Hsf, Hsg; simpl; rewrite !extend_nth_nil.
      repeat split; try assumption; try lia; try (now left).
  - unfold run; rewrite Hff, Hfg, <- Hr.
    destruct (sys_ready sf) eqn:Hready.
    + rewrite (invoke_whole_slice TestIot.f sf x p
                 (fst (sys_store sf) ++ map (fun a => wrap64 (2 * a))
                                            (py_slice_from x p),
                  snd (sys_store sf) ++ map (fun a => wrap64 (3 * a))
                                            (py_slice_from x p)))
        by (assumption || reflexivity).
      rewrite (invoke_whole_slice TestIot.g sg x p
                 (fst (sys_store sg) ++ map (fun a => wrap64 (a + a))
                                            (py_slice_from x p),
                  snd (sys_store sg) ++ map (fun a => wrap64 (a ^ 2))
                                            (py_slice_from x p)))
        by (assumption || reflexivity).
      exists x, (len x); simpl.
      rewrite Hyz, Huv; simpl.
      rewrite !map_slices by assumption.
      pose proof (len_nonneg x).
      repeat split; try lia; try (now right).
    + exists x, p; rewrite Hready.
      repeat split; try assumption; try lia.
Qed.

Lemma exec_test_iot_invariant (events : list (event Z)) :
  forall sf sg : System Z unit (list Z * list Z),
    test_iot_invariant sf sg ->
    test_iot_invariant (exec (iot_transition TestIot.f) sf events)
                       (exec (iot_transition TestIot.g) sg events).
Proof.
  induction events as [|ev events IH]; intros sf sg H; simpl.
  - assumption.
  - apply IH, step_test_iot_invariant; assumption.
Qed.

(** X1.  The two agents of [test_iot], whatever the extensions of [x] and
    the runs in between: neither agent fails, both stand at the same pointer
    within the stream, [y], [z], [u] and [v] hold [2*a], [3*a], [a+a] and
    [a**2] (in 64-bit arithmetic) for the elements [a] of [x] up to that
    pointer, in order, so [y] and [u] are equal; and once the agents have
    run after the last extension, that is the whole of [x]. *)
Theorem test_iot_maps_the_stream :
  forall events : list (event Z),
    let sf := exec (iot_transition TestIot.f) TestIot.agent_f events in
    let sg := exec (iot_transition TestIot.g) TestIot.agent_g events in
    let x := in_stream sf in
    exists p,
      in_stream sg = x
      /\ sys_pointers sf = [p] /\ sys_pointers sg = [p]
      /\ 0 <= p <= len x
      /\ sys_failed sf = None /\ sys_failed sg = None
      /\ TestIot.y sf = map (fun a => wrap64 (2 * a)) (py_slice_to x p)
      /\ TestIot.z sf = map (fun a => wrap64 (3 * a)) (py_slice_to x p)
      /\ TestIot.u sg = map (fun a => wrap64 (a + a)) (py_slice_to x p)
      /\ TestIot.v sg = map (fun a => wrap64 (a ^ 2)) (py_slice_to x p)
      /\ TestIot.y sf = TestIot.u sg
      /\ (sys_ready sf = true \/ p = len x).
Proof.
  intros events sf sg x.
  assert (H0 : test_iot_invariant TestIot.agent_f TestIot.agent_g).
  { exists [], 0; unfold TestIot.agent_f, TestIot.agent_g, new_system; simpl.
    repeat split; try reflexivity; try (unfold len; simpl; lia);
      try (now right). }
  destruct (exec_test_iot_invariant events _ _ H0)
    as (x' & p & Hsf & Hsg & Hpf & Hpg & Hb & Hff & Hfg & Hr & Hq & Hyz & Huv).
  fold sf in Hsf, Hpf, Hff, Hr, Hq, Hyz; fold sg in Hsg, Hpg, Hfg, Huv.
  assert (Hx : x = x') by (unfold x, in_stream; now rewrite Hsf).
  exists p; unfold in_stream, TestIot.y, TestIot.z, TestIot.u, TestIot.v.
  rewrite Hsg, Hyz, Huv, Hx; cbn [fst snd nth].
  repeat split; try assumption; try lia.
  apply map_ext; intros a; f_equal; lia.
Qed.

(** ** The sliding window over a whole run *)

Lemma full_windows_nonneg (w s n : Z) : 1 <= s -> 0 <= full_windows w s n.
Proof.
  intros Hs; unfold full_windows.
  destruct (Z.ltb_spec n w); [lia|].
  pose proof (Z.div_pos (n - w) s ltac:(lia) ltac:(lia)); lia.
Qed.

Lemma full_windows_mono (w s n n' : Z) :
  1 <= s -> n <= n' -> full_windows w s n <= full_windows w s n'.
Proof.
  intros Hs Hn; unfold full_windows.
  destruct (Z.ltb_spec n w); destruct (Z.ltb_spec n' w); try lia.
  - pose proof (Z.div_pos (n' - w) s ltac:(lia) ltac:(lia)); lia.
  - pose proof (Z.div_le_mono (n - w) (n' - w) s ltac:(lia) ltac:(lia)); lia.
Qed.

(** Every full window lies within the stream. *)
Lemma full_window_fits (w s n i : Z) :
  1 <= s -> 0 <= i < full_windows w s n -> i * s + w <= n.
Proof.
  intros Hs Hi; unfold full_windows in Hi.
  destruct (Z.ltb_spec n w); [lia|].
  pose proof (Z.mul_div_le (n - w) s ltac:(lia)).
  nia.
Qed.

(** The windows left to reduce from [k] steps on. *)
Lemma full_windows_rest (w s n k : Z) :
  1 <= s -> 0 <= k -> w <= n - k * s ->
  full_windows w s n = k + ((n - k * s - w) / s + 1).
Proof.
  intros Hs Hk Hn; unfold full_windows.
  destruct (Z.ltb_spec n w); [nia|].
  replace (n - w) with (n - k * s - w + k * s) by lia.
  rewrite Z.div_add by lia; lia.
Qed.

Lemma py_slice_app_within {A : Type} (l l' : list A) (a b : Z) :
  0 <= a <= b -> b <= len l -> py_slice (l ++ l') a b = py_slice l a b.
Proof.
  intros Ha Hb.
  pose proof (len_nonneg l').
  rewrite !py_slice_in_range by (rewrite ?len_app; lia).
  rewrite skipn_app, firstn_app.
  replace (Z.to_nat (b - a) - length (skipn (Z.to_nat a) l))%nat with 0%nat
    by (rewrite length_skipn; unfold len in *; lia).
  apply app_nil_r.
Qed.

Lemma seq_from (a n : nat) :
  seq a n = map (fun i => (a + i)%nat) (seq 0 n).
Proof.
  revert a; induction n as [|n IH]; intros a; simpl; [reflexivity|].
  rewrite Nat.add_0_r; f_equal.
  rewrite (IH (S a)), <- seq_shift, map_map.
  apply map_ext; intros i; lia.
Qed.

Lemma py_range_add (k m : Z) :
  0 <= k -> 0 <= m ->
  py_range (k + m) = py_range k ++ map (fun i => k + i) (py_range m).
Proof.
  intros Hk Hm; unfold py_range.
  rewrite Z2Nat.inj_add by assumption.
  rewrite seq_app, map_app, map_map; f_equal.
  rewrite (seq_from (0 + Z.to_nat k)), map_map.
  apply map_ext; intros i; lia.
Qed.

Lemma new_window_invariant {Elt Out : Type} (func : list Elt -> Out)
    (w s : Z) :
  1 <= w -> 1 <= s -> window_invariant func w s (new_window func w s).
Proof.
  intros Hw Hs; exists [], 0; unfold new_window, new_system; simpl.
  assert (H0 : full_windows w s (len (@nil Elt)) = 0).
  { unfold full_windows, len; simpl.
    destruct (Z.ltb_spec 0 w); [reflexivity | lia]. }
  rewrite H0; repeat split; try reflexivity; try lia; try (now right).
Qed.

Lemma step_window_invariant {Elt Out : Type} (func : list Elt -> Out)
    (w s : Z) (sys : System Elt unit (sliding_window_test Elt Out))
    (ev : event Elt) :
  1 <= w -> 1 <= s ->
  window_invariant func w s sys ->
  window_invariant func w s (step (iot_transition extend) sys ev).
Proof.
  intros Hw Hs (x & k & Hst & Hp & Hk & Hf & Hfunc & Hws & Hss & Hout & Hq).
  destruct ev as [i values|]; simpl.
  - destruct i as [|i].
    + exists (x ++ values), k; unfold stream_extend; simpl; rewrite Hst; simpl.
      pose proof (len_nonneg values).
      pose proof (full_windows_mono w s (len x) (len (x ++ values)) Hs
                    ltac:(rewrite len_app; lia)).
      split; [reflexivity | split; [assumption | split; [lia |]]].
      split; [assumption | split; [assumption | split; [assumption |]]].
      split; [assumption | split; [| now left]].
      rewrite Hout; apply map_ext_in; intros j Hj.
      apply in_py_range in Hj.
      pose proof (full_window_fits w s (len x) j Hs ltac:(lia)).
      rewrite py_slice_app_within by nia; reflexivity.
    + exists x, k; unfold stream_extend; simpl; rewrite Hst; simpl.
      rewrite extend_nth_nil.
      split; [reflexivity | split; [assumption | split; [assumption |]]].
      split; [assumption | split; [assumption | split; [assumption |]]].
      split; [assumption | split; [assumption | now left]].
  - unfold run; rewrite Hf.
    destruct (sys_ready sys) eqn:Hready;
      [| exists x, k; rewrite Hready; repeat split; (assumption || lia)].
    unfold invoke; rewrite Hst, Hp; simpl in_lists_of.
    unfold iot_transition; rewrite in_list_slice_offered.
    set (A := py_slice_from x (k * s)).
    assert (HlenA : k * s <= len x -> len A = len x - k * s).
    { intros H; unfold A; apply len_py_slice_from; nia. }
    assert (Hbeyond : len x < k * s -> len A = 0).
    { intros H; unfold A; rewrite py_slice_from_beyond by lia; reflexivity. }
    destruct (Z.lt_ge_cases (len A) w) as [Hshort|Hfull].
    + rewrite extend_short by (rewrite Hws; assumption).
      simpl.
      assert (Hall : k = full_windows w s (len x)).
      { destruct (Z.eq_dec k (full_windows w s (len x))) as [E|E];
          [assumption|].
        pose proof (full_window_fits w s (len x) k Hs ltac:(lia)).
        rewrite HlenA in Hshort by lia; lia. }
      exists x, k; simpl.
      split; [reflexivity | split; [reflexivity | split; [assumption |]]].
      split; [reflexivity | split; [assumption | split; [assumption |]]].
      split; [assumption | split; [assumption | now right]].
    + assert (Hin : k * s <= len x).
      { destruct (Z.le_gt_cases (k * s) (len x)); [assumption|].
        rewrite Hbeyond in Hfull by lia; lia. }
      specialize (HlenA Hin).
      rewrite extend_full by (rewrite ?Hws, ?Hss; assumption).
      cbv zeta; rewrite Hws, Hss, Hfunc.
      set (steps := (len A - w) / s + 1).
      destruct (steps_bounds (len A) w s Hs Hfull) as (H1 & H2 & H3).
      fold steps in H1, H3.
      destruct (Z.geb_spec (steps * s) 0); [|nia].
      exists x, (k + steps); simpl.
      pose proof (full_windows_rest w s (len x) k Hs ltac:(lia)
                    ltac:(lia)) as Hrest.
      rewrite <- HlenA in Hrest; fold steps in Hrest.
      split; [reflexivity | split; [f_equal; lia | split; [lia |]]].
      split; [reflexivity | split; [reflexivity | split; [reflexivity |]]].
      split; [reflexivity | split; [| right; lia]].
      rewrite py_range_add, map_app, map_map by lia.
      rewrite Hout; f_equal.
      apply map_ext_in; intros j Hj.
      apply in_py_range in Hj.
      unfold window; simpl; unfold A.
      rewrite py_slice_of_tail by nia.
      f_equal; f_equal; lia.
Qed.

Lemma exec_window_invariant {Elt Out : Type} (func : list Elt -> Out)
    (w s : Z) (events : list (event Elt)) :
  1 <= w -> 1 <= s ->
  forall sys : System Elt unit (sliding_window_test Elt Out),
    window_invariant func w s sys ->
    window_invariant func w s (exec (iot_transition extend) sys events).
Proof.
  intros Hw Hs; induction events as [|ev events IH]; intros sys H; simpl.
  - assumption.
  - apply IH, step_window_invariant; assumption.
Qed.

(** What a run of a sliding window has put out, for any step. *)
Lemma window_run {Elt Out : Type} (func : list Elt -> Out) (w s : Z)
    (events : list (event Elt)) :
  1 <= w -> 1 <= s ->
  let sys := exec (iot_transition extend) (new_window func w s) events in
  let x := in_stream sys in
  exists k rest,
    sys_pointers sys = [k * s]
    /\ 0 <= k <= full_windows w s (len x)
    /\ sys_failed sys = None
    /\ len (out_stream (sys_store sys)) = k
    /\ batch_windows func w s x = out_stream (sys_store sys) ++ rest
    /\ (sys_ready sys = true
        \/ out_stream (sys_store sys) = batch_windows func w s x).
Proof.
  intros Hw Hs sys x.
  destruct (exec_window_invariant func w s events Hw Hs _
              (new_window_invariant func w s Hw Hs))
    as (x' & k & Hst & Hp & Hk & Hf & _ & _ & _ & Hout & Hq).
  fold sys in Hst, Hp, Hf, Hout, Hq.
  assert (Hx : x = x') by (unfold x, in_stream; now rewrite Hst).
  rewrite Hx; clear Hx.
  set (F := fun i => func (py_slice x' (i * s) (i * s + w))) in *.
  exists k, (map F (map (fun i => k + i)
                        (py_range (full_windows w s (len x') - k)))).
  split; [assumption | split; [assumption | split; [assumption |]]].
  split; [| split].
  - rewrite Hout; unfold len; rewrite length_map, length_py_range; lia.
  - unfold batch_windows; fold F; rewrite Hout, <- map_app, <- py_range_add
      by lia.
    do 2 f_equal; lia.
  - destruct Hq as [Hq|Hq]; [now left | right].
    unfold batch_windows; fold F; now rewrite Hout, Hq.
Qed.

(** X2.  A sliding window whose step does not exceed its size, over any
    extensions of the stream and runs in between: the agent never fails,
    its pointer is a whole number of steps and stays within the stream, the
    output is a prefix of the reducer applied to the successive full
    windows of the whole stream, and it is all of them once the agent has
    run after the last extension -- however the stream was cut into
    extensions. *)
Theorem sliding_window_is_batch :
  forall (Elt Out : Type) (func : list Elt -> Out) (w s : Z)
    (events : list (event Elt)),
    1 <= s -> s <= w ->
    let sys := exec (iot_transition extend) (new_window func w s) events in
    let x := in_stream sys in
    exists k rest,
      sys_pointers sys = [k * s]
      /\ 0 <= k * s <= len x
      /\ sys_failed sys = None
      /\ len (out_stream (sys_store sys)) = k
      /\ batch_windows func w s x = out_stream (sys_store sys) ++ rest
      /\ (sys_ready sys = true
          \/ out_stream (sys_store sys) = batch_windows func w s x).
Proof.
  intros Elt Out func w s events Hs Hsw sys x.
  destruct (window_run func w s events ltac:(lia) Hs)
    as (k & rest & Hp & Hk & Hf & Hl & Hb & Hq).
  fold sys in Hp, Hk, Hf, Hl, Hb, Hq; fold x in Hk, Hb, Hq.
  exists k, rest.
  split; [assumption | split; [| repeat split; assumption]].
  destruct (Z.eq_dec k 0) as [->|Hk0]; [pose proof (len_nonneg x); lia|].
  pose proof (full_window_fits w s (len x) (k - 1) Hs ltac:(lia)).
  nia.
Qed.

(** The theorem at work on the window of [test_iot_class], with the stream
    extended three times before the first run. *)
Lemma sliding_window_is_batch_witness :
  1 <= 2 /\ 2 <= 5
  /\ exists k rest,
       sys_pointers
         (exec (iot_transition extend) (new_window TestIotClass.np_sum 5 2)
               [Extend 0 [3; 1]; Extend 0 [4; 1; 5]; Extend 0 [9; 2; 6]; Run])
       = [k * 2]
       /\ batch_windows TestIotClass.np_sum 5 2 [3; 1; 4; 1; 5; 9; 2; 6]
          = out_stream
              (sys_store
                 (exec (iot_transition extend)
                       (new_window TestIotClass.np_sum 5 2)
                       [Extend 0 [3; 1]; Extend 0 [4; 1; 5];
                        Extend 0 [9; 2; 6]; Run]))
            ++ rest.
Proof.
  assert (H1 : 1 <= 2) by lia.
  assert (H2 : 2 <= 5) by lia.
  split; [exact H1 | split; [exact H2 |]].
  destruct (sliding_window_is_batch Z Z TestIotClass.np_sum 5 2
              [Extend 0 [3; 1]; Extend 0 [4; 1; 5]; Extend 0 [9; 2; 6]; Run]
              H1 H2) as (k & rest & Hp & _ & _ & _ & Hb & _).
  exists k, rest; split; [exact Hp | exact Hb].
Defined.

(** X3.  A sliding window whose step exceeds its size hops over the
    elements between two windows: over any extensions of the stream and
    runs in between the agent never fails, and its output is still the
    reducer applied to the successive full windows of the whole stream,
    all of them once the agent has run after the last extension. *)
Theorem hopping_window_is_batch :
  forall (Elt Out : Type) (func : list Elt -> Out) (w s : Z)
    (events : list (event Elt)),
    1 <= w -> w < s ->
    let sys := exec (iot_transition extend) (new_window func w s) events in
    let x := in_stream sys in
    exists k rest,
      sys_pointers sys = [k * s]
      /\ 0 <= k <= full_windows w s (len x)
      /\ sys_failed sys = None
      /\ len (out_stream (sys_store sys)) = k
      /\ batch_windows func w s x = out_stream (sys_store sys) ++ rest
      /\ (sys_ready sys = true
          \/ out_stream (sys_store sys) = batch_windows func w s x).
Proof.
  intros Elt Out func w s events Hw Hs.
  apply window_run; lia.
Qed.

(** The theorem at work: windows of one element, two apart, while the
    stream grows one element at a time; the pointer runs ahead of the
    stream and every second element is reduced. *)
Lemma hopping_window_is_batch_witness :
  1 <= 1 /\ 1 < 2
  /\ out_stream
       (sys_store
          (exec (iot_transition extend) (new_window TestIotClass.np_sum 1 2)
                [Extend 0 [7]; Run; Extend 0 [8]; Run; Extend 0 [9]; Run]))
     = [7; 9]
  /\ exists k rest,
       batch_windows TestIotClass.np_sum 1 2 [7; 8; 9]
       = out_stream
           (sys_store
              (exec (iot_transition extend)
                    (new_window TestIotClass.np_sum 1 2)
                    [Extend 0 [7]; Run; Extend 0 [8]; Run; Extend 0 [9];
                     Run]))
         ++ rest
       /\ len (out_stream
                 (sys_store
                    (exec (iot_transition extend)
                          (new_window TestIotClass.np_sum 1 2)
                          [Extend 0 [7]; Run; Extend 0 [8]; Run;
                           Extend 0 [9]; Run])))
          = k.
Proof.
  assert (H1 : 1 <= 1) by lia.
  assert (H2 : 1 < 2) by lia.
  split; [exact H1 | split; [exact H2 | split; [reflexivity |]]].
  destruct (hopping_window_is_batch Z Z TestIotClass.np_sum 1 2
              [Extend 0 [7]; Run; Extend 0 [8]; Run; Extend 0 [9]; Run]
              H1 H2) as (k & rest & _ & _ & _ & Hl & Hb & _).
  exists k, rest; split; [exact Hb | exact Hl].
Defined.

(** ** The merge agent of [test_iot_merge] over a whole run *)

Lemma combine_app_same {A B : Type} (a a' : list A) (b b' : list B) :
  length a = length b ->
  combine (a ++ a') (b ++ b') = combine a b ++ combine a' b'.
Proof.
  revert b; induction a as [|u a IH]; intros [|v b] H; simpl in *;
    try discriminate; [reflexivity|].
  f_equal; apply IH; lia.
Qed.

Lemma column_stack_app (a a' b b' : list Z) :
  length a = length b ->
  TestIotMerge.column_stack (a ++ a') (b ++ b')
  = TestIotMerge.column_stack a b ++ TestIotMerge.column_stack a' b'.
Proof.
  intros H; unfold TestIotMerge.column_stack.
  now rewrite combine_app_same, map_app.
Qed.

(** Stacking two streams stops at the shorter one. *)
Lemma column_stack_min (x y : list Z) :
  TestIotMerge.column_stack (py_slice_to x (Z.min (len x) (len y)))
                            (py_slice_to y (Z.min (len x) (len y)))
  = TestIotMerge.column_stack x y.
Proof.
  pose proof (len_nonneg x); pose proof (len_nonneg y).
  rewrite !py_slice_to_in_range by lia.
  unfold TestIotMerge.column_stack.
  rewrite <- combine_firstn, firstn_all2; [reflexivity|].
  rewrite length_combine; unfold len in *; lia.
Qed.

Lemma step_zip_invariant (sys : System Z unit (list (list Z)))
    (ev : event Z) :
  zip_invariant sys -> zip_invariant (step TestIotMerge.transition sys ev).
Proof.
  intros (x & y & p & Hst & Hp & Hp0 & Hpx & Hpy & Hf & Hz & Hq).
  destruct ev as [i values|]; simpl.
  - pose proof (len_nonneg values).
    destruct i as [|[|i]]; unfold stream_extend; simpl; rewrite Hst; simpl.
    + exists (x ++ values), y, p; simpl.
      rewrite py_slice_to_app, len_app by lia.
      repeat split; try assumption; try lia; try (now left).
    + exists x, (y ++ values), p; simpl.
      rewrite py_slice_to_app, len_app by lia.
      repeat split; try assumption; try lia; try (now left).
    + exists x, y, p; simpl; rewrite extend_nth_nil.
      repeat split; try assumption; try lia; try (now left).
  - unfold run; rewrite Hf.
    destruct (sys_ready sys) eqn:Hready;
      [| exists x, y, p; rewrite Hready; repeat split; (assumption || lia)].
    unfold invoke; rewrite Hst, Hp; simpl in_lists_of.
    set (n := Z.min (len x - p) (len y - p)).
    assert (Hn : 0 <= n) by (unfold n; lia).
    assert (HT : TestIotMerge.transition
                   [mkInList x p (len x); mkInList y p (len y)]
                   (sys_state sys) (sys_store sys)
                 = (sys_store sys
                    ++ TestIotMerge.column_stack (py_slice x p (p + n))
                                                 (py_slice y p (p + n)),
                    Ok ([], sys_state sys, [n + p; n + p]))).
    { unfold TestIotMerge.transition, iot_merge_transition; simpl map.
      rewrite !in_list_slice_offered.
      unfold TestIotMerge.f; simpl py_min.
      rewrite !len_py_slice_from by lia; fold n.
      unfold py_slice_to.
      rewrite !py_slice_of_tail by (unfold n; lia).
      rewrite !Z.add_0_r.
      simpl map; unfold len at 1 2; simpl length; simpl Z.eqb.
      simpl check_new_starts.
      destruct (Z.geb_spec n 0); [reflexivity | lia]. }
    rewrite HT.
    exists x, y, (p + n); simpl.
    split; [reflexivity | split; [f_equal; [lia | f_equal; lia] |]].
    split; [lia | split; [unfold n; lia | split; [unfold n; lia |]]].
    split; [reflexivity | split; [| right; unfold n; lia]].
    rewrite Hz.
    rewrite (py_slice_to_split x p (p + n)), (py_slice_to_split y p (p + n))
      by (unfold n; lia).
    symmetry; apply column_stack_app.
    rewrite !py_slice_to_in_range by lia.
    rewrite !length_firstn; unfold len in *; lia.
Qed.

Lemma exec_zip_invariant (events : list (event Z)) :
  forall sys : System Z unit (list (list Z)),
    zip_invariant sys -> zip_invariant (exec TestIotMerge.transition sys events).
Proof.
  induction events as [|ev events IH]; intros sys H; simpl.
  - assumption.
  - apply IH, step_zip_invariant; assumption.
Qed.

(** X4.  The merge agent of [test_iot_merge], whatever the extensions of
    the two streams and the runs in between: it never fails, its two
    pointers are equal and within both streams, [z] holds the rows
    [[x[i], y[i]]] for [i] below the pointer, in order and once each, and
    once the agent has run after the last extension [z] is the two streams
    stacked up to the length of the shorter one. *)
Theorem merge_is_zip :
  forall events : list (event Z),
    let sys := exec TestIotMerge.transition TestIotMerge.sys0 events in
    let x := nth 0 (sys_streams sys) [] in
    let y := nth 1 (sys_streams sys) [] in
    exists p,
      sys_pointers sys = [p; p]
      /\ 0 <= p <= Z.min (len x) (len y)
      /\ sys_failed sys = None
      /\ TestIotMerge.z sys
         = TestIotMerge.column_stack (py_slice_to x p) (py_slice_to y p)
      /\ len (TestIotMerge.z sys) = p
      /\ (sys_ready sys = true
          \/ TestIotMerge.z sys = TestIotMerge.column_stack x y).
Proof.
  intros events sys x y.
  assert (H0 : zip_invariant TestIotMerge.sys0).
  { exists [], [], 0; unfold TestIotMerge.sys0, new_system; simpl.
    repeat split; try reflexivity; try (unfold len; simpl; lia);
      try (now right). }
  destruct (exec_zip_invariant events _ H0)
    as (x' & y' & p & Hst & Hp & Hp0 & Hpx & Hpy & Hf & Hz & Hq).
  fold sys in Hst, Hp, Hf, Hz, Hq.
  assert (Hx : x = x') by (unfold x; now rewrite Hst).
  assert (Hy : y = y') by (unfold y; now rewrite Hst).
  rewrite Hx, Hy; unfold TestIotMerge.z; rewrite Hz.
  exists p.
  split; [assumption | split; [lia | split; [assumption |]]].
  split; [reflexivity | split].
  - unfold TestIotMerge.column_stack, len.
    rewrite length_map, length_combine, !py_slice_to_in_range by lia.
    rewrite !length_firstn; unfold len in *; lia.
  - destruct Hq as [Hq|Hq]; [now left | right].
    rewrite Hq; apply column_stack_min.
Qed.

(** ** A sliding window whose step is not positive *)

Lemma step_stuck_invariant {Elt Out : Type} (s : Z)
    (sys : System Elt unit (sliding_window_test Elt Out)) (ev : event Elt) :
  s <= 0 ->
  stuck_invariant s sys ->
  stuck_invariant s (step (iot_transition extend) sys ev).
Proof.
  intros Hs (x & Hst & Hp & Hss & Hout & Hf).
  destruct ev as [i values|]; simpl.
  - destruct i as [|i]; unfold stream_extend; simpl; rewrite Hst; simpl;
      rewrite ?extend_nth_nil; eexists; repeat split; eassumption.
  - unfold run.
    destruct (sys_failed sys) as [e|] eqn:Hfail;
      [exists x; rewrite Hfail; repeat split; assumption|].
    destruct (sys_ready sys);
      [| exists x; rewrite Hfail; repeat split; assumption].
    unfold invoke; rewrite Hst, Hp; simpl in_lists_of.
    unfold iot_transition; rewrite in_list_slice_offered.
    set (A := py_slice_from x 0).
    unfold extend; rewrite Hss.
    destruct (Z.ltb_spec (len A) (window_size (sys_store sys))) as [Hlt|Hge].
    { exists x; simpl; repeat split; try assumption; discriminate. }
    destruct (Z.eqb_spec s 0) as [H0|H0].
    { exists x; simpl; split; [reflexivity | split; [reflexivity |]].
      split; [assumption | split; [assumption |]].
      intros e E; injection E as <-; now left. }
    set (num_steps := 1 + (len A - window_size (sys_store sys)) / s).
    destruct (Z.ltb_spec num_steps 0) as [Hn|Hn].
    { exists x; simpl; split; [reflexivity | split; [reflexivity |]].
      split; [assumption | split; [assumption |]].
      intros e E; injection E as <-; right; now left. }
    destruct (Z.geb_spec (num_steps * s) 0) as [Hpos|Hneg].
    + exists x; simpl.
      split; [reflexivity | split; [f_equal; nia | split; [reflexivity |]]].
      split; [intros; lia | discriminate].
    + exists x; simpl.
      split; [reflexivity | split; [reflexivity | split; [reflexivity |]]].
      split; [intros; lia |].
      intros e E; injection E as <-; right; now right.
Qed.

Lemma exec_stuck_invariant {Elt Out : Type} (s : Z)
    (events : list (event Elt)) :
  s <= 0 ->
  forall sys : System Elt unit (sliding_window_test Elt Out),
    stuck_invariant s sys ->
    stuck_invariant s (exec (iot_transition extend) sys events).
Proof.
  intros Hs; induction events as [|ev events IH]; intros sys H; simpl.
  - assumption.
  - apply IH, step_stuck_invariant; assumption.
Qed.

(** X5.  A sliding window whose step is zero or negative never consumes
    anything: whatever the extensions and runs, the pointer of its agent
    stays at the start of the stream; if the agent fails, it is with
    [ZeroDivisionError] (step zero), [ValueError] (a negative number of
    steps) or [AssertionError] (a negative count reported); and with a step
    of zero nothing is ever put out. *)
Theorem nonpositive_step_never_advances :
  forall (Elt Out : Type) (func : list Elt -> Out) (w s : Z)
    (events : list (event Elt)),
    s <= 0 ->
    let sys := exec (iot_transition extend) (new_window func w s) events in
    sys_pointers sys = [0]
    /\ (forall e, sys_failed sys = Some e ->
        e = ZeroDivisionError \/ e = ValueError \/ e = AssertionError)
    /\ (s = 0 -> out_stream (sys_store sys) = []).
Proof.
  intros Elt Out func w s events Hs sys.
  assert (H0 : stuck_invariant s (new_window func w s)).
  { exists []; unfold new_window, new_system; simpl.
    repeat split; discriminate. }
  destruct (exec_stuck_invariant s events Hs _ H0)
    as (x & _ & Hp & _ & Hout & Hf).
  repeat split; assumption.
Qed.

(** The theorem at work: windows of two elements with a step of -1.  On
    exactly two elements one window is put out and the count -1 is
    rejected. *)
Lemma nonpositive_step_never_advances_witness :
  -1 <= 0
  /\ sys_pointers
       (exec (iot_transition extend) (new_window TestIotClass.np_sum 2 (-1))
             [Extend 0 [3; 4]; Run; Extend 0 [5]; Run])
     = [0]
  /\ sys_failed
       (exec (iot_transition extend) (new_window TestIotClass.np_sum 2 (-1))
             [Extend 0 [3; 4]; Run; Extend 0 [5]; Run])
     = Some AssertionError
  /\ out_stream
       (sys_store
          (exec (iot_transition extend)
                (new_window TestIotClass.np_sum 2 (-1))
                [Extend 0 [3; 4]; Run; Extend 0 [5]; Run]))
     = [7].
Proof.
  assert (H : -1 <= 0) by lia.
  split; [exact H | split; [| split; reflexivity]].
  exact (proj1 (nonpositive_step_never_advances Z Z TestIotClass.np_sum 2 (-1)
                  [Extend 0 [3; 4]; Run; Extend 0 [5]; Run] H)).
Defined.

(** ** [average_of_list] of [offset_estimation_test] *)

Lemma not_None_nil_iff {A : Type} (os : list (option A)) :
  Timing.not_None os = [] <-> Forall (fun o => o = None) os.
Proof.
  split; [|apply not_None_all_None].
  induction os as [|[a|] os IH]; simpl; intros H.
  - constructor.
  - discriminate.
  - constructor; [reflexivity | now apply IH].
Qed.

(** X6.  [average_of_list] returns [0.0] on the empty list and the sum of
    the elements that are not [None] divided by their number when there is
    one; on a list that is not empty and holds nothing but [None] it
    raises [ZeroDivisionError], and that is the only way it raises -- where
    [clock_drift_from_average_of_ntp_servers], which tests the list after
    removing the [None]s, returns [None]. *)
Theorem average_of_list_cases :
  forall (float : Type) (fzero : float) (fadd fdiv : float -> float -> float)
    (of_int : Z -> float) (a_list : list (option float)),
    let average := MulticoreTest.average_of_list fzero fadd fdiv of_int in
    let ds := Timing.not_None a_list in
    (a_list = [] -> average a_list = Ok fzero)
    /\ (ds <> [] ->
        average a_list
        = Ok (fdiv (Timing.py_sum fadd of_int ds) (of_int (len ds))))
    /\ (a_list <> [] -> Forall (fun o => o = None) a_list ->
        average a_list = Raise ZeroDivisionError)
    /\ (forall e, average a_list = Raise e ->
        e = ZeroDivisionError /\ a_list <> []
        /\ Forall (fun o => o = None) a_list).
Proof.
  intros float fzero fadd fdiv of_int a_list average ds.
  unfold average, MulticoreTest.average_of_list; fold ds.
  assert (Hlen : len ds = 0 <-> ds = []).
  { unfold len; destruct ds; simpl; split; (reflexivity || discriminate || lia). }
  split; [|split; [|split]].
  - intros ->; reflexivity.
  - intros Hne.
    destruct a_list as [|o a_list]; [now contradiction Hne|].
    destruct (Z.eqb_spec (len ds) 0) as [E|E]; [|reflexivity].
    apply Hlen in E; contradiction.
  - intros Hne Hall.
    destruct a_list as [|o a_list]; [now contradiction Hne|].
    apply not_None_all_None in Hall; fold ds in Hall.
    destruct (Z.eqb_spec (len ds) 0) as [E|E]; [reflexivity|].
    rewrite Hall in E; now contradiction E.
  - intros e He.
    destruct a_list as [|o a_list]; [discriminate|].
    destruct (Z.eqb_spec (len ds) 0) as [E|E]; [|discriminate].
    injection He as <-.
    split; [reflexivity | split; [discriminate |]].
    apply not_None_nil_iff, Hlen, E.
Qed.

(** The theorem at work: a window of two failed requests. *)
Lemma average_of_list_cases_witness :
  [@None Q; None] <> []
  /\ Forall (fun o => o = None) [@None Q; None]
  /\ MulticoreTest.average_of_list (0 # 1)%Q Timing.q_add Timing.q_div
       inject_Z [None; None]
     = Raise ZeroDivisionError.
Proof.
  assert (H1 : [@None Q; None] <> []) by discriminate.
  assert (H2 : Forall (fun o => o = None) [@None Q; None])
    by (repeat constructor).
  split; [exact H1 | split; [exact H2 |]].
  exact (proj1 (proj2 (proj2
           (average_of_list_cases Q (0 # 1)%Q Timing.q_add Timing.q_div
              inject_Z [None; None]))) H1 H2).
Defined.

(** ** Which servers are asked *)

Section ServersAsked.
Import Timing.
Context {server float World : Type}.
Variables (fzero ftwo : float) (is_true : float -> bool).
Variables (fadd fdiv : float -> float -> float) (of_int : Z -> float).
Variable flt : float -> float -> bool.
Variable request : server -> M World float.
Variable log_warning : server -> World -> World.

Local Abbreviation drift :=
  (clock_drift_from_ntp_server request log_warning).
Local Abbreviation first :=
  (clock_drift_from_first_ntp_server fzero is_true request log_warning).
Local Abbreviation average :=
  (clock_drift_from_average_of_ntp_servers fadd fdiv of_int request
     log_warning).
Local Abbreviation median :=
  (clock_drift_from_median_of_ntp_servers fzero ftwo fadd fdiv flt request
     log_warning).

(** Indexing a list leaves the world alone, and its outcome does not
    depend on the world. *)
Lemma py_getitem_pure {A : Type} (l : list A) (i : Z) :
  exists r : result A, forall w : World, py_getitem l i w = (w, r).
Proof.
  unfold py_getitem.
  destruct ((0 <=? (if i <? 0 then i + len l else i))
            && ((if i <? 0 then i + len l else i) <? len l)).
  - destruct (nth_error l (Z.to_nat (if i <? 0 then i + len l else i)));
      eexists; intros w; reflexivity.
  - eexists; intros w; reflexivity.
Qed.

(** What the median function does once the drifts are in: its outcome is
    a function of the sorted drifts that are not [None]. *)
Lemma median_of_sorted (l : list float) :
  exists r : result (option float),
    forall (servers : list server) (w w1 : World)
           (os : list (option float)),
      for_each drift servers w = (w1, Ok os) ->
      sorted flt (not_None os) = l ->
      median servers w = (w1, r).
Proof.
  destruct (py_getitem_pure l 0) as (r0 & H0).
  destruct (py_getitem_pure l (len l / 2)) as (rm & Hm).
  destruct (py_getitem_pure l (len l / 2 - 1)) as (rl & Hl).
  exists
    (match l with
     | [] => Ok None
     | _ :: _ =>
         if len l =? 0 then Ok (Some fzero)
         else if len l =? 1 then
           match r0 with Ok a => Ok (Some a) | Raise e => Raise e end
         else if negb (len l mod 2 =? 0) then
           match rm with Ok a => Ok (Some a) | Raise e => Raise e end
         else
           match rl with
           | Ok a => match rm with
                     | Ok b => Ok (Some (fdiv (fadd a b) ftwo))
                     | Raise e => Raise e
                     end
           | Raise e => Raise e
           end
     end).
  intros servers w w1 os Hf Hs.
  unfold clock_drift_from_median_of_ntp_servers, bind.
  rewrite Hf.
  destruct (not_None os) as [|d ds] eqn:Eds.
  - simpl in Hs; subst l; reflexivity.
  - rewrite Hs.
    destruct l as [|a l'] eqn:El.
    + pose proof (sorted_perm flt (d :: ds)) as Hp.
      rewrite Hs in Hp.
      apply Permutation_nil in Hp; discriminate.
    + rewrite <- El in *.
      destruct (len l =? 0); [reflexivity|].
      destruct (len l =? 1); [rewrite H0; destruct r0; reflexivity|].
      destruct (negb (len l mod 2 =? 0)).
      * rewrite Hm; destruct rm; reflexivity.
      * rewrite Hl; destruct rl; [|reflexivity].
        rewrite Hm; destruct rm; reflexivity.
Qed.

Lemma first_asks_a_prefix (servers : list server) (w : World) :
  exists k : nat,
    (k <= length servers)%nat
    /\ fst (first servers w) = fst (for_each drift (firstn k servers) w).
Proof.
  revert w; induction servers as [|s servers IH]; intros w.
  - exists 0%nat; split; [simpl; lia | reflexivity].
  - destruct (drift_absorbs request log_warning s w) as (w1 & o & Hd & _).
    destruct (truthy is_true o) eqn:Ht.
    + destruct o as [d|]; [|discriminate].
      exists 1%nat; split; [simpl; lia|].
      rewrite (first_takes fzero is_true request log_warning s servers w w1 d)
        by assumption.
      simpl; unfold bind; rewrite Hd; reflexivity.
    + destruct (IH w1) as (k & Hk & Hw).
      exists (S k); split; [simpl; lia|].
      rewrite (first_skips fzero is_true request log_warning s servers w w1 o)
        by assumption.
      rewrite Hw; simpl; unfold bind; rewrite Hd.
      destruct (for_each_drift_ok request log_warning (firstn k servers) w1)
        as (w2 & os & -> & _).
      reflexivity.
Qed.

End ServersAsked.

(** X7.  The average and the median functions ask every server of the
    list, in order, whatever the answers: they leave the world as the
    requests to all the servers leave it.  The first-responding function
    asks the servers of a prefix of the list and no other. *)
Theorem servers_asked :
  forall (server float World : Type) (fzero ftwo : float)
    (is_true : float -> bool) (fadd fdiv : float -> float -> float)
    (of_int : Z -> float) (flt : float -> float -> bool)
    (request : server -> Timing.M World float)
    (log_warning : server -> World -> World)
    (servers : list server) (w : World),
    let drift := Timing.clock_drift_from_ntp_server request log_warning in
    fst (Timing.clock_drift_from_average_of_ntp_servers
           fadd fdiv of_int request log_warning servers w)
    = fst (Timing.for_each drift servers w)
    /\ fst (Timing.clock_drift_from_median_of_ntp_servers
              fzero ftwo fadd fdiv flt request log_warning servers w)
       = fst (Timing.for_each drift servers w)
    /\ exists k : nat,
         (k <= length servers)%nat
         /\ fst (Timing.clock_drift_from_first_ntp_server
                   fzero is_true request log_warning servers w)
            = fst (Timing.for_each drift (firstn k servers) w).
Proof.
  intros server float World fzero ftwo is_true fadd fdiv of_int flt request
         log_warning servers w drift.
  destruct (for_each_drift_ok request log_warning servers w)
    as (w1 & os & Hf & _).
  fold drift in Hf.
  split; [|split].
  - unfold Timing.clock_drift_from_average_of_ntp_servers, Timing.bind.
    fold drift; rewrite Hf.
    destruct (Timing.not_None os); reflexivity.
  - destruct (median_of_sorted fzero ftwo fadd fdiv flt request log_warning
                (Timing.sorted flt (Timing.not_None os))) as (r & Hr).
    rewrite (Hr servers w w1 os Hf eq_refl), Hf; reflexivity.
  - apply first_asks_a_prefix.
Qed.

(** ** The median does not depend on the order of the answers *)

Section SortedUnique.
Import Timing.
Context {float : Type}.
Variable flt : float -> float -> bool.
Variable L : list float.
Hypothesis L_total : total_on flt L.

Local Abbreviation not_after := (fun a b : float => flt b a = false).

Lemma insert_sorted_strongly (x : float) (l : list float) :
  In x L -> incl l L ->
  StronglySorted not_after l ->
  StronglySorted not_after (insert_sorted flt x l).
Proof.
  destruct L_total as (Hasym & _ & Htrans).
  intros Hx Hl Hs; induction Hs as [|y l Hs IH Hy]; simpl.
  - repeat constructor.
  - assert (HyL : In y L) by (apply Hl; now left).
    assert (HlL : incl l L) by (intros c Hc; apply Hl; now right).
    destruct (flt x y) eqn:Hxy.
    + constructor; [constructor; assumption|].
      constructor; [now apply Hasym|].
      rewrite Forall_forall in Hy |- *; intros c Hc.
      apply (Htrans x y c); auto.
    + constructor; [now apply IH|].
      apply (Permutation_Forall (Permutation_sym (insert_sorted_perm flt x l))).
      constructor; assumption.
Qed.

Lemma sorted_strongly (l : list float) :
  incl l L -> StronglySorted not_after (sorted flt l).
Proof.
  intros Hl; unfold sorted.
  assert (H : StronglySorted not_after (@nil float) /\ incl (@nil float) L)
    by (split; [constructor | intros c []]).
  revert H; generalize (@nil float).
  induction l as [|x l IH]; intros acc [Hacc Hin]; simpl; [assumption|].
  apply IH.
  - intros c Hc; apply Hl; now right.
  - split.
    + apply insert_sorted_strongly; [apply Hl; now left | assumption..].
    + intros c Hc.
      apply (Permutation_in _ (insert_sorted_perm flt x acc)) in Hc.
      destruct Hc as [<-|Hc]; [apply Hl; now left | now apply Hin].
Qed.

Lemma strongly_sorted_unique (l1 l2 : list float) :
  incl l1 L -> Permutation l1 l2 ->
  StronglySorted not_after l1 -> StronglySorted not_after l2 -> l1 = l2.
Proof.
  destruct L_total as (_ & Hanti & _).
  revert l2; induction l1 as [|a l1 IH]; intros l2 Hin Hp Hs1 Hs2.
  - apply Permutation_nil in Hp; now subst.
  - destruct l2 as [|b l2];
      [apply Permutation_sym, Permutation_nil in Hp; discriminate|].
    apply StronglySorted_inv in Hs1 as [Hs1 Ha].
    apply StronglySorted_inv in Hs2 as [Hs2 Hb].
    rewrite Forall_forall in Ha, Hb.
    assert (Hab : a = b).
    { assert (Hb1 : In b (a :: l1))
        by (apply (Permutation_in _ (Permutation_sym Hp)); now left).
      assert (Ha2 : In a (b :: l2))
        by (apply (Permutation_in _ Hp); now left).
      destruct Hb1 as [E|Hb1]; [assumption|].
      destruct Ha2 as [E|Ha2]; [now symmetry|].
      apply Hanti.
      - apply Hin; now left.
      - apply Hin; now right.
      - now apply Hb.
      - now apply Ha. }
    subst b; f_equal.
    apply IH; try assumption.
    + intros c Hc; apply Hin; now right.
    + exact (Permutation_cons_inv Hp).
Qed.

Lemma sorted_unique (l1 l2 : list float) :
  incl l1 L -> Permutation l1 l2 -> sorted flt l1 = sorted flt l2.
Proof.
  intros Hin Hp.
  assert (Hin2 : incl l2 L)
    by (intros c Hc; apply Hin, (Permutation_in _ (Permutation_sym Hp) Hc)).
  apply strongly_sorted_unique.
  - intros c Hc; apply Hin, (Permutation_in _ (sorted_perm flt l1) Hc).
  - rewrite (sorted_perm flt l1), Hp; symmetry; apply sorted_perm.
  - now apply sorted_strongly.
  - now apply sorted_strongly.
Qed.

End SortedUnique.

(** X8.  The median function does not depend on the order in which the
    drifts come in: two lists of servers whose answers, [None]s left out,
    are the same drifts in another order yield the same median, provided
    [<] orders these drifts totally (no two of them are told apart by
    nothing). *)
Theorem median_order_independent :
  forall (server float World : Type) (fzero ftwo : float)
    (fadd fdiv : float -> float -> float)
    (flt : float -> float -> bool)
    (request : server -> Timing.M World float)
    (log_warning : server -> World -> World)
    (servers1 servers2 : list server) (w1 w2 w1' w2' : World)
    (os1 os2 : list (option float)),
    let drift := Timing.clock_drift_from_ntp_server request log_warning in
    let median := Timing.clock_drift_from_median_of_ntp_servers
                    fzero ftwo fadd fdiv flt request log_warning in
    Timing.for_each drift servers1 w1 = (w1', Ok os1) ->
    Timing.for_each drift servers2 w2 = (w2', Ok os2) ->
    Permutation (Timing.not_None os1) (Timing.not_None os2) ->
    total_on flt (Timing.not_None os1) ->
    snd (median servers1 w1) = snd (median servers2 w2).
Proof.
  intros server float World fzero ftwo fadd fdiv flt request log_warning
         servers1 servers2 w1 w2 w1' w2' os1 os2 drift median H1 H2 Hp Ht.
  destruct (median_of_sorted fzero ftwo fadd fdiv flt request log_warning
              (Timing.sorted flt (Timing.not_None os1))) as (r & Hr).
  unfold median.
  rewrite (Hr servers1 w1 w1' os1 H1 eq_refl).
  rewrite (Hr servers2 w2 w2' os2 H2).
  - reflexivity.
  - symmetry.
    apply (sorted_unique flt (Timing.not_None os1) Ht);
      [intros c Hc; exact Hc | assumption].
Qed.

(** The theorem at work: servers 3, 4 and 6 report -2/4, -1/4 and 1/4;
    asked in the order 6, 3, 4 they yield the same median -1/4. *)
Lemma median_order_independent_witness :
  total_on Timing.q_lt [(-2 # 4)%Q; (-1 # 4)%Q; (1 # 4)%Q]
  /\ Permutation [(-2 # 4)%Q; (-1 # 4)%Q; (1 # 4)%Q]
                 [(1 # 4)%Q; (-2 # 4)%Q; (-1 # 4)%Q]
  /\ snd (Timing.q_median [3; 4; 6]%nat [])
     = snd (Timing.q_median [6; 3; 4]%nat [])
  /\ snd (Timing.q_median [6; 3; 4]%nat []) = Ok (Some (-1 # 4)%Q).
Proof.
  assert (Ht : total_on Timing.q_lt [(-2 # 4)%Q; (-1 # 4)%Q; (1 # 4)%Q]).
  { split; [|split].
    - intros a b [<-|[<-|[<-|[]]]] [<-|[<-|[<-|[]]]] H;
        first [reflexivity | discriminate H].
    - intros a b [<-|[<-|[<-|[]]]] [<-|[<-|[<-|[]]]] H H';
        first [reflexivity | discriminate H | discriminate H'].
    - intros a b c [<-|[<-|[<-|[]]]] [<-|[<-|[<-|[]]]] [<-|[<-|[<-|[]]]] H H';
        first [reflexivity | discriminate H | discriminate H']. }
  assert (Hp : Permutation [(-2 # 4)%Q; (-1 # 4)%Q; (1 # 4)%Q]
                           [(1 # 4)%Q; (-2 # 4)%Q; (-1 # 4)%Q]).
  { apply Permutation_sym.
    apply (Permutation_cons_app [(-2 # 4)%Q; (-1 # 4)%Q] [] (1 # 4)%Q).
    rewrite app_nil_r; apply Permutation_refl. }
  split; [exact Ht | split; [exact Hp | split; [| reflexivity]]].
  exact (median_order_independent nat Q (list Timing.entry) (0 # 1)%Q
           (2 # 1)%Q Timing.q_add Timing.q_div Timing.q_lt
           Timing.scripted_request Timing.scripted_warning
           [3; 4; 6]%nat [6; 3; 4]%nat [] [] _ _ _ _ eq_refl eq_refl Hp Ht).
Defined.

(** ** What a merge agent consumes, input by input *)

Section CoverEach.
Context {Elt State Store : Type}.

Lemma read_parts_extend (i : nat) (values : list Elt)
    (streams : list (list Elt)) (pointers : list Z) :
  Forall2 (fun s p => 0 <= p <= len s) streams pointers ->
  read_parts (extend_nth i values streams) pointers
  = read_parts streams pointers.
Proof.
  intros H; revert i; induction H as [|s p streams pointers Hp Htl IH];
    intros [|i]; simpl; try reflexivity; unfold read_parts in *; simpl.
  - now rewrite py_slice_to_app.
  - now rewrite IH.
Qed.

Lemma read_parts_advance (streams : list (list Elt)) (pointers ps : list Z) :
  Forall2 (fun s p => 0 <= p <= len s) streams pointers ->
  Forall2 (fun il p => il_start il <= p) (in_lists_of streams pointers) ps ->
  Forall2 (fun il p => p <= il_stop il) (in_lists_of streams pointers) ps ->
  append_each (read_parts streams pointers)
    (map (fun ilp => py_slice (il_list (fst ilp)) (il_start (fst ilp))
                              (snd ilp))
         (combine (in_lists_of streams pointers) ps))
  = read_parts streams ps.
Proof.
  intros H; revert ps; induction H as [|s p streams pointers Hp _ IH];
    intros ps H1 H2; simpl in *.
  - inversion H1; subst; reflexivity.
  - inversion H1 as [|? p' ? ps' Hp1 H1']; subst.
    inversion H2 as [|? ? ? ? Hp2 H2']; subst.
    simpl in Hp1, Hp2.
    unfold append_each, read_parts in *; simpl.
    rewrite (IH ps' H1' H2').
    f_equal; symmetry; apply py_slice_to_split; lia.
Qed.

Lemma read_parts_nothing (streams : list (list Elt)) (pointers : list Z) :
  append_each (read_parts streams pointers)
              (map (fun _ => []) (in_lists_of streams pointers))
  = read_parts streams pointers.
Proof.
  revert pointers; induction streams as [|s streams IH]; intros [|p ps];
    try reflexivity.
  unfold append_each, read_parts in *; simpl.
  now rewrite app_nil_r, IH.
Qed.

Lemma consumed_per_input_snoc (n : nat) (h : list (Invocation Elt State))
    (inv : Invocation Elt State) :
  consumed_per_input n (h ++ [inv])
  = append_each (consumed_per_input n h) (consumed_slices inv).
Proof.
  unfold consumed_per_input; now rewrite map_app, fold_left_app.
Qed.

Lemma read_unread (streams : list (list Elt)) (pointers : list Z) :
  Forall2 (fun s p => 0 <= p <= len s) streams pointers ->
  streams = append_each (read_parts streams pointers)
                        (unread_parts streams pointers).
Proof.
  induction 1 as [|s p streams pointers Hp _ IH]; [reflexivity|].
  unfold append_each, read_parts, unread_parts in *; simpl.
  now rewrite <- IH, <- py_slice_to_from.
Qed.

Lemma new_system_cover_each (n : nat) (state : State) (store : Store) :
  cover_each_invariant n (new_system (Elt := Elt) n state store).
Proof.
  unfold cover_each_invariant, new_system; simpl.
  rewrite repeat_length; split; [reflexivity | split].
  - apply (new_system_bounded n state store).
  - unfold consumed_per_input, read_parts; simpl.
    induction n as [|n IH]; simpl; [reflexivity | now rewrite <- IH].
Qed.

Lemma step_cover_each (n : nat) (T : @transition_t Elt State Store)
    (sys : System Elt State Store) (ev : event Elt) :
  advances n T -> stays_within n T ->
  cover_each_invariant n sys -> cover_each_invariant n (step T sys ev).
Proof.
  intros HA HW (Hlen & Hb & Hc).
  destruct ev as [i values|]; simpl.
  - unfold cover_each_invariant, stream_extend; simpl.
    rewrite extend_nth_length, read_parts_extend by assumption.
    split; [assumption | split; [now apply extend_nth_bounded | assumption]].
  - unfold run.
    destruct (sys_failed sys); [repeat split; assumption|].
    destruct (sys_ready sys); [|repeat split; assumption].
    assert (Hil : length (in_lists_of (sys_streams sys) (sys_pointers sys)) = n).
    { rewrite in_lists_of_length; [assumption | exact (Forall2_length Hb)]. }
    unfold invoke.
    destruct (T (in_lists_of (sys_streams sys) (sys_pointers sys))
                (sys_state sys) (sys_store sys)) as [store' r] eqn:HTr.
    destruct r as [[[outs state'] ps]|e]; unfold cover_each_invariant; simpl;
      rewrite consumed_per_input_snoc, Hc; unfold consumed_slices; simpl.
    + pose proof (HA _ _ _ _ _ _ _ Hil HTr) as H1.
      pose proof (HW _ _ _ _ _ _ _ Hil (in_lists_of_in_range _ _ Hb) HTr) as H2.
      destruct (in_lists_of_new_pointers _ _ _ Hb H1 H2) as [K1 _].
      split; [assumption | split; [assumption |]].
      now apply read_parts_advance.
    + split; [assumption | split; [assumption |]].
      apply read_parts_nothing.
Qed.

Lemma exec_cover_each (n : nat) (T : @transition_t Elt State Store)
    (events : list (event Elt)) :
  advances n T -> stays_within n T ->
  forall sys : System Elt State Store,
    cover_each_invariant n sys -> cover_each_invariant n (exec T sys events).
Proof.
  intros HA HW; induction events as [|ev events IH]; intros sys H; simpl.
  - assumption.
  - apply IH, step_cover_each; assumption.
Qed.

End CoverEach.

(** X9.  In every run of an agent built by [iot_merge] whose callback
    never reports more elements than a slice holds, every pointer stays
    within its stream and, input by input, the slices consumed,
    concatenated in order, are exactly the stream up to its pointer: each
    stream is what was consumed of it followed by its unread rest, so
    nothing is consumed twice or passed over, whatever the pace of the
    other inputs. *)
Theorem merge_consumes_each_input_once :
  forall (Elt State Store : Type)
    (mfunc : list (list Elt) -> Store -> Store * result pyval)
    (n : nat) (state : State) (store : Store) (events : list (event Elt)),
    within_slices mfunc ->
    let sys := exec (iot_merge_transition mfunc) (new_system n state store)
                    events in
    length (sys_streams sys) = n
    /\ Forall2 (fun s p => 0 <= p <= len s)
               (sys_streams sys) (sys_pointers sys)
    /\ consumed_per_input n (sys_history sys)
       = read_parts (sys_streams sys) (sys_pointers sys)
    /\ sys_streams sys
       = append_each (consumed_per_input n (sys_history sys))
                     (unread_parts (sys_streams sys) (sys_pointers sys)).
Proof.
  intros Elt State Store mfunc n state store events Hw sys.
  destruct (exec_cover_each n (iot_merge_transition mfunc) events
              (iot_merge_advances n mfunc) (iot_merge_within n mfunc Hw) _
              (new_system_cover_each n state store)) as (Hl & Hb & Hc).
  fold sys in Hl, Hb, Hc.
  split; [assumption | split; [assumption | split; [assumption |]]].
  rewrite Hc; now apply read_unread.
Qed.

Lemma fold_min_below (l : list (list Z)) (a : Z) :
  fold_left Z.min (map len l) a <= a
  /\ Forall (fun A => fold_left Z.min (map len l) a <= len A) l.
Proof.
  revert a; induction l as [|B l IH]; intros a; simpl.
  - split; [lia | constructor].
  - destruct (IH (Z.min a (len B))) as [H1 H2].
    split; [lia | constructor; [lia | assumption]].
Qed.

(** The callback of [test_iot_merge] reports the length of the shortest
    slice, which no slice falls short of. *)
Lemma merge_f_within : within_slices TestIotMerge.f.
Proof.
  intros A_list store store' vs H; unfold TestIotMerge.f in H.
  destruct A_list as [|A0 [|A1 rest]]; simpl in H; try discriminate.
  injection H as _ <-.
  destruct (fold_min_below rest (Z.min (len A0) (len A1))) as [H1 H2].
  set (m := fold_left Z.min (map len rest) (Z.min (len A0) (len A1))) in *.
  constructor; [intros d Hd; injection Hd as <-; lia|].
  constructor; [intros d Hd; injection Hd as <-; lia|].
  clearbody m; clear H1.
  induction H2 as [|A l HA _ IH]; simpl; constructor; [|assumption].
  intros d Hd; injection Hd as <-; assumption.
Qed.

(** The theorem at work on the callback of [test_iot_merge], which
    reports the length of the shorter slice for both inputs. *)
Lemma merge_consumes_each_input_once_witness :
  within_slices TestIotMerge.f
  /\ consumed_per_input 2 (sys_history TestIotMerge.sys3)
     = [[0; 1; 2; 3; 4; 5; 6]; [100; 101; 102; 103; 104; 105; 106]]
  /\ consumed_per_input 2 (sys_history TestIotMerge.sys3)
     = read_parts (sys_streams TestIotMerge.sys3)
                  (sys_pointers TestIotMerge.sys3).
Proof.
  split; [exact merge_f_within | split; [reflexivity |]].
  exact (proj1 (proj2 (proj2
           (merge_consumes_each_input_once Z unit (list (list Z))
              TestIotMerge.f 2 tt []
              [Extend 0%nat (arange 0 5); Run; Extend 1%nat (arange 100 109);
               Run; Extend 0%nat (arange 5 7); Run] merge_f_within)))).
Defined.
